(** * Rick and Morty SRE app: the upstream client, the crawl and the sync

    A shallow embedding of [app/rick_morty_client.py], [app/services.py],
    [app/cache.py] and the records of [app/models.py], with the properties
    the specification states about them.

    Conventions.
    - Time is an integer number of milliseconds ([clock]); it moves only
      when the code sleeps or waits for the upstream to answer.
    - The upstream API is a function from the number of requests sent so far
      and the request to a reply, so that it may answer differently each time.
    - A Python call that may raise returns a [result]; code that also reads
      or changes the process state (clock, request counter, breaker) is a
      function [world -> result A * world].
    - Strings are byte strings; lower-casing acts on the ASCII letters, which
      is all the test for the substring "earth" can observe. *)

From Stdlib Require Import ZArith Lia Ascii String.
From stdpp Require Import base gmap strings list pretty sorting.

Local Open Scope Z_scope.

(** ** Python values and exceptions *)

(** A decoded JSON document, as [response.json()] returns it.  Objects keep
    one binding per key (the decoder keeps the last duplicate). *)
Local Unset Elimination Schemes.
Inductive json : Type :=
| JNull
| JBool (b : bool)
| JNum (n : Z)
| JStr (s : string)
| JArr (items : list json)
| JObj (fields : list (string * json)).
Local Set Elimination Schemes.

(** The exceptions that travel through the client and the service. *)
Inductive exn : Type :=
| HTTPStatusError (status_code : Z)   (* httpx.HTTPStatusError *)
| RequestError                        (* httpx.RequestError *)
| JSONDecodeError                     (* response.json() on a body that is not JSON *)
| RickMortyAPIError (cause : exn)     (* raised by _make_request *)
| RetryError (last_attempt : exn)     (* tenacity.RetryError *)
| CircuitBreakerError                 (* circuitbreaker.CircuitBreakerError *)
| AttributeError
| TypeError
| ValueError
| DatabaseError.                      (* any failure of the storage layer *)

Inductive result (A : Type) : Type :=
| Return (a : A)
| Raise (e : exn).
Arguments Return {A} a.
Arguments Raise {A} e.

(** Truth value of a Python object ([if x:], [if not x:]). *)
Definition truthy (v : json) : bool :=
  match v with
  | JNull => false
  | JBool b => b
  | JNum n => negb (n =? 0)
  | JStr s => negb (String.eqb s EmptyString)
  | JArr items => match items with [] => false | _ => true end
  | JObj fields => match fields with [] => false | _ => true end
  end.

Fixpoint assoc (key : string) (fields : list (string * json)) : option json :=
  match fields with
  | [] => None
  | (k, v) :: rest => if String.eqb k key then Some v else assoc key rest
  end.

(** [d.get(key, default)]: only a dict has [get]. *)
Definition dict_get (d : json) (key : string) (default : json) : result json :=
  match d with
  | JObj fields =>
      Return (match assoc key fields with Some v => v | None => default end)
  | _ => Raise AttributeError
  end.

(** Iterating a value with [for x in v]: a list gives its items, a string
    its characters, a dict its keys; the other values are not iterable. *)
Fixpoint chars_of (s : string) : list json :=
  match s with
  | EmptyString => []
  | String c rest => JStr (String c EmptyString) :: chars_of rest
  end.

Definition py_iter (v : json) : result (list json) :=
  match v with
  | JArr items => Return items
  | JStr s => Return (chars_of s)
  | JObj fields => Return (map (fun kv => JStr (fst kv)) fields)
  | _ => Raise TypeError
  end.

(** [str.lower()] on the ASCII letters. *)
Definition ascii_lower (c : ascii) : ascii :=
  let n := nat_of_ascii c in
  if ((65 <=? n) && (n <=? 90))%nat then ascii_of_nat (n + 32) else c.

Fixpoint lower (s : string) : string :=
  match s with
  | EmptyString => EmptyString
  | String c rest => String (ascii_lower c) (lower rest)
  end.

(** [needle in haystack] on strings. *)
Fixpoint contains (needle haystack : string) : bool :=
  String.prefix needle haystack
  || match haystack with
     | EmptyString => false
     | String _ rest => contains needle rest
     end.

(** ** app/models.py *)

Module CharacterOrigin.
Record t := { name : string; url : string }.
End CharacterOrigin.

Module CharacterLocation.
Record t := { name : string; url : string }.
End CharacterLocation.

(** The pydantic model of one upstream character. *)
Module CharacterResponse.
Record t := {
  id : Z;
  name : string;
  status : string;
  species : string;
  type : string;
  gender : string;
  origin : CharacterOrigin.t;
  location : CharacterLocation.t;
  image : string;
  episode : list string;
  url : string;
  created : Z
}.
End CharacterResponse.

(** The row of table [characters]; nullable columns are options. *)
Module Character.
Record t := {
  id : Z;
  name : string;
  status : string;
  species : string;
  type : option string;
  gender : option string;
  origin_name : option string;
  origin_url : option string;
  location_name : option string;
  location_url : option string;
  image_url : option string;
  episode_urls : option string;
  api_url : option string;
  created_at : Z;
  updated_at : Z
}.
End Character.

Module FilteredCharacterResponse.
Record t := {
  id : Z;
  name : string;
  status : string;
  species : string;
  origin_name : string;
  image_url : string;
  created_at : Z
}.
End FilteredCharacterResponse.

(** ** Library calls

    The client and the service call into [urllib.parse], [int], pydantic and
    [json]; what these return is taken as given. *)
Class PyLib := {
  (** [parse_qs(urlparse(link).query).get("page")]: the values of the
      [page] key are non-empty when present; we keep the first one.
      [urlparse] raises on some malformed links. *)
  query_page : string -> result (option string);
  (** [int(s)] on a string: [None] stands for [ValueError]. *)
  py_int : string -> option Z;
  (** [CharacterResponse] built from the keys of [char_data]: [None] when
      validation raises. *)
  model_validate : json -> option CharacterResponse.t;
  (** [json.dumps] on a list of strings. *)
  json_dumps : list string -> string
}.

(** ** The upstream API and the process state *)

Record request := {
  endpoint : string;
  params : list (string * json)
}.

(** What one [client.get] meets: an HTTP response with its status code and
    its body ([None] when the body is not JSON), or a failure to connect,
    to send or to read in time. *)
Inductive response : Type :=
| HttpResponse (status_code : Z) (body : option json)
| TransportFailure.

(** A reply is a response and the time it took, in milliseconds. *)
Record reply := {
  outcome : response;
  elapsed : Z
}.

(** The upstream: the reply to a request given how many were sent before. *)
Definition upstream := nat -> request -> reply.

(** *** circuitbreaker.CircuitBreaker

    The [circuitbreaker] package that [@circuit] comes from is not part of
    the repository.  Its breaker is modelled from section 4.2 of the
    specification, with the names the package uses. *)

(** Modelled from the spec: the states of the breaker of
    [circuitbreaker.circuit] (closed, open, half open). *)
Inductive cb_state := STATE_CLOSED | STATE_OPEN | STATE_HALF_OPEN.

Definition cb_state_eqb (a b : cb_state) : bool :=
  match a, b with
  | STATE_CLOSED, STATE_CLOSED
  | STATE_OPEN, STATE_OPEN
  | STATE_HALF_OPEN, STATE_HALF_OPEN => true
  | _, _ => false
  end.

(** Modelled from the spec: the breaker state of [circuitbreaker.circuit]:
    the stored state, the count of consecutive failures, the time the
    breaker opened. *)
Record CircuitBreaker := {
  _state : cb_state;
  _failure_count : Z;
  _opened : Z
}.

(** [@circuit(failure_threshold=5, recovery_timeout=30)] *)
Definition failure_threshold : Z := 5.
Definition recovery_timeout : Z := 30 * 1000.

Module CB.
(** Modelled from the spec: a new breaker of [circuitbreaker.circuit]
    starts closed, with no failure counted. *)
Definition new (now : Z) : CircuitBreaker :=
  {| _state := STATE_CLOSED; _failure_count := 0; _opened := now |}.

(** Modelled from the spec: the time left of the recovery timeout of
    [circuitbreaker.circuit], counted from the moment the breaker opened. *)
Definition open_remaining (cb : CircuitBreaker) (now : Z) : Z :=
  (_opened cb + recovery_timeout) - now.

(** Modelled from the spec: the [state] property of
    [circuitbreaker.circuit]; an open breaker becomes half open by itself
    once the recovery timeout has passed. *)
Definition state (cb : CircuitBreaker) (now : Z) : cb_state :=
  if cb_state_eqb (_state cb) STATE_OPEN && (open_remaining cb now <=? 0)
  then STATE_HALF_OPEN
  else _state cb.

(** Modelled from the spec: the [opened] test of [circuitbreaker.circuit],
    on which calls fail fast. *)
Definition opened (cb : CircuitBreaker) (now : Z) : bool :=
  cb_state_eqb (state cb now) STATE_OPEN.

(** Modelled from the spec: what [circuitbreaker.circuit] records when a
    call succeeds; the breaker closes and the failure counter goes to 0. *)
Definition call_succeeded (cb : CircuitBreaker) : CircuitBreaker :=
  {| _state := STATE_CLOSED; _failure_count := 0; _opened := _opened cb |}.

(** Modelled from the spec: what [circuitbreaker.circuit] records when a
    call fails; one more consecutive failure, and once the count reaches
    the threshold the breaker opens and the timer starts (again). *)
Definition call_failed (cb : CircuitBreaker) (now : Z) : CircuitBreaker :=
  let count := _failure_count cb + 1 in
  if failure_threshold <=? count
  then {| _state := STATE_OPEN; _failure_count := count; _opened := now |}
  else {| _state := _state cb; _failure_count := count; _opened := _opened cb |}.
End CB.

(** *** The state one client lives in *)

Record world := {
  clock : Z;                 (* time.monotonic(), in milliseconds *)
  sent : nat;                (* requests handed to the HTTP client so far *)
  breaker : CircuitBreaker   (* the breaker that decorates _make_request *)
}.

Definition M (A : Type) : Type := world -> result A * world.

Definition sleep (ms : Z) (w : world) : world :=
  {| clock := clock w + ms; sent := sent w; breaker := breaker w |}.

Definition set_breaker (cb : CircuitBreaker) (w : world) : world :=
  {| clock := clock w; sent := sent w; breaker := cb |}.

(** [await self.client.get(url, params=params)]: one request leaves. *)
Definition client_get (up : upstream) (req : request) (w : world) : response * world :=
  let r := up (sent w) req in
  (outcome r,
   {| clock := clock w + elapsed r; sent := S (sent w); breaker := breaker w |}).

(** [response.is_success], on which [raise_for_status] decides. *)
Definition is_success (status_code : Z) : bool :=
  (200 <=? status_code) && (status_code <=? 299).

(** *** tenacity

    The [tenacity] package that [@retry] comes from is not part of the
    repository.  Its loop is modelled from section 4.2 of the specification;
    the predicate, the stop condition and the wait are the arguments the
    decorator is given in the source. *)

(** [retry_if_exception_type((httpx.RequestError, httpx.HTTPStatusError))] *)
Definition retry_if_exception_type (e : exn) : bool :=
  match e with
  | HTTPStatusError _ | RequestError => true
  | _ => false
  end.

(** [stop_after_attempt(3)] *)
Definition max_attempt_number : nat := 3.
Definition stop_after_attempt (attempt_number : nat) : bool :=
  (max_attempt_number <=? attempt_number)%nat.

(** [wait_exponential(multiplier=1, min=4, max=10)], in seconds. *)
Definition wait_exponential (attempt_number : nat) : Z :=
  Z.max (Z.max 0 4) (Z.min (1 * 2 ^ (Z.of_nat attempt_number - 1)) 10).

(** Modelled from the spec: the loop of [tenacity.retry] around a call
    [fn].  An attempt that returns ends it; an exception the predicate does
    not select is raised as it is; one it selects is retried after the wait
    unless the stop condition holds, and then the last error is raised
    wrapped (in tenacity's own [RetryError], the decorator giving no
    [reraise=True]).  [budget] bounds the recursion; three attempts need
    two retries. *)
Fixpoint retrying {A} (budget : nat) (attempt_number : nat) (fn : M A) : M A :=
  fun w =>
    let '(r, w1) := fn w in
    match r with
    | Return a => (Return a, w1)
    | Raise e =>
        if retry_if_exception_type e then
          if stop_after_attempt attempt_number then (Raise (RetryError e), w1)
          else
            match budget with
            | O => (Raise (RetryError e), w1)
            | S budget' =>
                retrying budget' (S attempt_number) fn
                         (sleep (1000 * wait_exponential attempt_number) w1)
            end
        else (Raise e, w1)
    end.

(** Modelled from the spec: the [@retry] decorator of tenacity; attempts
    are numbered from 1. *)
Definition retry {A} (fn : M A) : M A := retrying max_attempt_number 1%nat fn.

(** Modelled from the spec: the [@circuit] decorator of
    [circuitbreaker]; an open breaker refuses the call at once, without
    running it; otherwise the call runs and its outcome is recorded (no
    [expected_exception] is given, so every exception counts as a
    failure). *)
Definition circuit {A} (fn : M A) : M A :=
  fun w =>
    if CB.opened (breaker w) (clock w) then (Raise CircuitBreakerError, w)
    else
      let '(r, w1) := fn w in
      match r with
      | Return a => (Return a, set_breaker (CB.call_succeeded (breaker w1)) w1)
      | Raise e => (Raise e, set_breaker (CB.call_failed (breaker w1) (clock w1)) w1)
      end.

(** ** app/rick_morty_client.py *)

(** What one turn of the crawl loop decides. *)
Inductive control := Stop | Next (page : Z).

Section RickMortyClient.
Context {lib : PyLib} (up : upstream).

(** The [try] block of [_make_request]: send, [raise_for_status], decode. *)
Definition try_request (req : request) : M json :=
  fun w =>
    let '(resp, w1) := client_get up req w in
    match resp with
    | TransportFailure => (Raise RequestError, w1)
    | HttpResponse status_code body =>
        if is_success status_code then
          match body with
          | Some data => (Return data, w1)
          | None => (Raise JSONDecodeError, w1)
          end
        else (Raise (HTTPStatusError status_code), w1)
    end.

(** The body of [_make_request] with its two [except] clauses: both httpx
    errors leave as [RickMortyAPIError]; a 429 first sleeps 60 seconds. *)
Definition _make_request_body (req : request) : M json :=
  fun w =>
    let '(r, w1) := try_request req w in
    match r with
    | Raise (HTTPStatusError status_code) =>
        let w2 := if status_code =? 429 then sleep (60 * 1000) w1 else w1 in
        (Raise (RickMortyAPIError (HTTPStatusError status_code)), w2)
    | Raise RequestError => (Raise (RickMortyAPIError RequestError), w1)
    | _ => (r, w1)
    end.

(** [_make_request] as decorated: [@circuit] outside, [@retry] inside. *)
Definition _make_request (req : request) : M json :=
  circuit (retry (_make_request_body req)).

Definition add_param (key : string) (value : option string)
    (params : list (string * json)) : list (string * json) :=
  match value with
  | Some s => if negb (String.eqb s EmptyString) then params ++ [(key, JStr s)] else params
  | None => params
  end.

Definition get_characters (page : Z) (name status species gender : option string)
    : M json :=
  let params :=
    add_param "gender" gender
      (add_param "species" species
         (add_param "status" status
            (add_param "name" name [("page"%string, JNum page)]))) in
  _make_request {| endpoint := "character"; params := params |}.

(** [char_data.get("origin", {}).get("name", empty).lower()], where
    [empty] is the empty string. *)
Definition origin_name_lower (char_data : json) : result string :=
  match dict_get char_data "origin" (JObj []) with
  | Raise e => Raise e
  | Return origin =>
      match dict_get origin "name" (JStr EmptyString) with
      | Raise e => Raise e
      | Return (JStr s) => Return (lower s)
      | Return _ => Raise AttributeError
      end
  end.

(** The [for] loop of [_filter_earth_characters]; a record that fails
    validation is logged and left out. *)
Fixpoint filter_loop (characters : list json) (filtered : list CharacterResponse.t)
    : result (list CharacterResponse.t) :=
  match characters with
  | [] => Return filtered
  | char_data :: rest =>
      match origin_name_lower char_data with
      | Raise e => Raise e
      | Return origin_name =>
          if contains "earth" origin_name then
            match model_validate char_data with
            | Some c => filter_loop rest (filtered ++ [c])
            | None => filter_loop rest filtered
            end
          else filter_loop rest filtered
      end
  end.

Definition _filter_earth_characters (characters : json)
    : result (list CharacterResponse.t) :=
  match py_iter characters with
  | Raise e => Raise e
  | Return items => filter_loop items []
  end.

Definition _extract_next_page_number (data : json) (current_page : Z)
    : result (option Z) :=
  match dict_get data "info" (JObj []) with
  | Raise e => Raise e
  | Return info =>
      match dict_get info "next" JNull with
      | Raise e => Raise e
      | Return next_link =>
          if negb (truthy next_link) then Return None
          else
            match next_link with
            | JStr link =>
                match query_page link with
                | Raise e => Raise e
                | Return value =>
                    let parsed :=
                      match value with
                      | Some s => py_int s
                      | None => Some 0
                      end in
                    match parsed with
                    | None => Return None
                    | Some next_page_num =>
                        if next_page_num <=? current_page then Return None
                        else Return (Some next_page_num)
                    end
                end
            | _ => Raise AttributeError
            end
      end
  end.

(** The [try] block inside the [while True] of
    [get_all_filtered_characters].  [all_characters] is a list that is
    extended in place, so it is returned next to the result: what was
    added stays added when a later statement raises. *)
Definition crawl_page (page : Z) (all_characters : list CharacterResponse.t)
    (w : world) : result control * list CharacterResponse.t * world :=
  let '(r, w1) := get_characters page None (Some "Alive"%string) (Some "Human"%string) None w in
  match r with
  | Raise e => (Raise e, all_characters, w1)
  | Return data =>
      match dict_get data "results" (JArr []) with
      | Raise e => (Raise e, all_characters, w1)
      | Return characters =>
          if negb (truthy characters) then (Return Stop, all_characters, w1)
          else
            match _filter_earth_characters characters with
            | Raise e => (Raise e, all_characters, w1)
            | Return earth_characters =>
                let all_characters' := all_characters ++ earth_characters in
                match _extract_next_page_number data page with
                | Raise e => (Raise e, all_characters', w1)
                | Return None => (Return Stop, all_characters', w1)
                | Return (Some next_page_num) =>
                    if next_page_num =? 0 then (Return Stop, all_characters', w1)
                    else (Return (Next next_page_num), all_characters',
                          sleep 100 w1)
                end
            end
      end
  end.

(** The loop: [break] on [Stop] and in both [except] clauses
    ([RickMortyAPIError], then [Exception]).  [fuel] bounds the number of
    pages fetched; [None] means the bound was reached while the upstream
    still advertised a further page. *)
Fixpoint crawl_loop (fuel : nat) (page : Z) (all_characters : list CharacterResponse.t)
    (w : world) : option (result (list CharacterResponse.t) * world) :=
  match fuel with
  | O => None
  | S fuel' =>
      let '(r, all_characters', w1) := crawl_page page all_characters w in
      match r with
      | Return (Next next_page_num) => crawl_loop fuel' next_page_num all_characters' w1
      | Return Stop => Some (Return all_characters', w1)
      | Raise (RickMortyAPIError _) => Some (Return all_characters', w1)
      | Raise _ => Some (Return all_characters', w1)
      end
  end.

Definition get_all_filtered_characters (fuel : nat) (w : world)
    : option (result (list CharacterResponse.t) * world) :=
  crawl_loop fuel 1 [] w.

End RickMortyClient.

(** ** app/cache.py *)

(** What the service stores: the dump of one character under
    [character:{id}], the dump of a listing under [characters:...]. *)
Inductive cache_value : Type :=
| CharacterDump (c : FilteredCharacterResponse.t)
| ListingDump (characters : list FilteredCharacterResponse.t) (total : Z).

(** The Redis keyspace: each key holds a value and the time it expires. *)
Abbreviation redis := (gmap string (cache_value * Z)).

Record CacheManager := {
  redis_client : option redis;
  _connected : bool;
  reachable : bool   (* false: every Redis command raises, and is caught *)
}.

(** [settings.cache_prefix] and [settings.cache_ttl] of app/config.py *)
Definition cache_prefix : string := "rickmorty:".
Definition cache_ttl : Z := 3600.

(** Redis glob patterns built from literal characters, [?] and [*]. *)
Fixpoint glob_match (pattern : string) : string -> bool :=
  match pattern with
  | EmptyString => fun key => match key with EmptyString => true | _ => false end
  | String p pattern' =>
      if Ascii.eqb p "*" then
        fix star (key : string) : bool :=
          glob_match pattern' key
          || match key with
             | EmptyString => false
             | String _ key' => star key'
             end
      else if Ascii.eqb p "?" then
        fun key => match key with
                   | EmptyString => false
                   | String _ key' => glob_match pattern' key'
                   end
      else
        fun key => match key with
                   | EmptyString => false
                   | String k key' => Ascii.eqb p k && glob_match pattern' key'
                   end
  end.

Module Cache.
Definition usable (cache : CacheManager) : option redis :=
  if negb (_connected cache) then None
  else match redis_client cache with
       | None => None
       | Some store => if reachable cache then Some store else None
       end.

Definition with_store (cache : CacheManager) (store : redis) : CacheManager :=
  {| redis_client := Some store;
     _connected := _connected cache;
     reachable := reachable cache |}.

Definition live (now : Z) (entry : cache_value * Z) : bool := now <? snd entry.

Definition get (cache : CacheManager) (now : Z) (key : string) : option cache_value :=
  match usable cache with
  | None => None
  | Some store =>
      match store !! (cache_prefix +:+ key) with
      | Some entry => if live now entry then Some (fst entry) else None
      | None => None
      end
  end.

Definition set (cache : CacheManager) (now : Z) (key : string) (value : cache_value)
    (ttl : option Z) : bool * CacheManager :=
  match usable cache with
  | None => (false, cache)
  | Some store =>
      let ttl := match ttl with
                 | Some t => if t =? 0 then cache_ttl else t
                 | None => cache_ttl
                 end in
      (true, with_store cache (<[cache_prefix +:+ key := (value, now + 1000 * ttl)]> store))
  end.

(** [clear_pattern]: [KEYS] lists the live keys that match, [DELETE]
    removes them and returns how many there were. *)
Definition clear_pattern (cache : CacheManager) (now : Z) (pattern : string)
    : Z * CacheManager :=
  match usable cache with
  | None => (0, cache)
  | Some store =>
      let full_pattern := cache_prefix +:+ pattern in
      let keys := filter (fun kv => glob_match full_pattern (fst kv) = true
                                    /\ live now (snd kv) = true) store in
      (Z.of_nat (size keys),
       with_store cache
         (filter (fun kv => glob_match full_pattern (fst kv) = false) store))
  end.
End Cache.

(** ** app/services.py *)

(** The database session: the committed table, and the table as the open
    transaction sees it. *)
Record session := {
  committed : list Character.t;
  rows : list Character.t
}.

(** Where the storage layer fails: at the [execute] for the i-th record of
    a sync, at [commit]. *)
Record faults := {
  execute_fault : nat -> option exn;
  commit_fault : option exn
}.

Definition rollback (db : session) : session :=
  {| committed := committed db; rows := committed db |}.

Definition select_by_id (table : list Character.t) (id : Z) : list Character.t :=
  List.filter (fun c => Character.id c =? id) table.

Definition scalar_one_or_none (found : list Character.t) : result (option Character.t) :=
  match found with
  | [] => Return None
  | [c] => Return (Some c)
  | _ => Raise DatabaseError
  end.

Section CharacterService.
Context {lib : PyLib} (up : upstream).

(** The assignments to [existing_char] in the update branch. *)
Definition updated (existing_char : Character.t) (api_char : CharacterResponse.t)
    (now : Z) : Character.t :=
  {| Character.id := Character.id existing_char;
     Character.name := CharacterResponse.name api_char;
     Character.status := CharacterResponse.status api_char;
     Character.species := CharacterResponse.species api_char;
     Character.type := Some (CharacterResponse.type api_char);
     Character.gender := Some (CharacterResponse.gender api_char);
     Character.origin_name :=
       Some (CharacterOrigin.name (CharacterResponse.origin api_char));
     Character.origin_url :=
       Some (CharacterOrigin.url (CharacterResponse.origin api_char));
     Character.location_name :=
       Some (CharacterLocation.name (CharacterResponse.location api_char));
     Character.location_url :=
       Some (CharacterLocation.url (CharacterResponse.location api_char));
     Character.image_url := Some (CharacterResponse.image api_char);
     Character.episode_urls := Some (json_dumps (CharacterResponse.episode api_char));
     Character.api_url := Some (CharacterResponse.url api_char);
     Character.created_at := Character.created_at existing_char;
     Character.updated_at := now |}.

(** [Character(id=api_char.id, ...)]; both timestamps get the server
    default when the row is written. *)
Definition new_char (api_char : CharacterResponse.t) (now : Z) : Character.t :=
  {| Character.id := CharacterResponse.id api_char;
     Character.name := CharacterResponse.name api_char;
     Character.status := CharacterResponse.status api_char;
     Character.species := CharacterResponse.species api_char;
     Character.type := Some (CharacterResponse.type api_char);
     Character.gender := Some (CharacterResponse.gender api_char);
     Character.origin_name :=
       Some (CharacterOrigin.name (CharacterResponse.origin api_char));
     Character.origin_url :=
       Some (CharacterOrigin.url (CharacterResponse.origin api_char));
     Character.location_name :=
       Some (CharacterLocation.name (CharacterResponse.location api_char));
     Character.location_url :=
       Some (CharacterLocation.url (CharacterResponse.location api_char));
     Character.image_url := Some (CharacterResponse.image api_char);
     Character.episode_urls := Some (json_dumps (CharacterResponse.episode api_char));
     Character.api_url := Some (CharacterResponse.url api_char);
     Character.created_at := now;
     Character.updated_at := now |}.

(** The row with the id of [api_char] is overwritten where it stands. *)
Definition update_row (table : list Character.t) (api_char : CharacterResponse.t)
    (now : Z) : list Character.t :=
  map (fun c => if Character.id c =? CharacterResponse.id api_char
                then updated c api_char now else c) table.

(** The [for api_char in api_characters] loop; [i] numbers the records.
    A record whose lookup raises is logged and skipped. *)
Fixpoint sync_loop (f : faults) (now : Z) (i : nat)
    (api_characters : list CharacterResponse.t)
    (table : list Character.t) (synced_count : Z) : list Character.t * Z :=
  match api_characters with
  | [] => (table, synced_count)
  | api_char :: rest =>
      match execute_fault f i with
      | Some _ => sync_loop f now (S i) rest table synced_count
      | None =>
          match scalar_one_or_none (select_by_id table (CharacterResponse.id api_char)) with
          | Raise _ => sync_loop f now (S i) rest table synced_count
          | Return (Some _) =>
              sync_loop f now (S i) rest (update_row table api_char now) (synced_count + 1)
          | Return None =>
              sync_loop f now (S i) rest (table ++ [new_char api_char now]) (synced_count + 1)
          end
      end
  end.

(** [sync_characters_from_api]: the count, or the exception that left
    through [except Exception: rollback; raise]. *)
Definition sync_characters_from_api (fuel : nat) (f : faults) (w : world)
    (db : session) (cache : CacheManager)
    : option (result Z * world * session * CacheManager) :=
  match get_all_filtered_characters up fuel w with
  | None => None
  | Some (Raise e, w1) => Some (Raise e, w1, rollback db, cache)
  | Some (Return api_characters, w1) =>
      match api_characters with
      | [] => Some (Return 0, w1, db, cache)
      | _ =>
          let '(table, synced_count) :=
            sync_loop f (clock w1) O api_characters (rows db) 0 in
          match commit_fault f with
          | Some e => Some (Raise e, w1, rollback db, cache)
          | None =>
              let db' := {| committed := table; rows := table |} in
              let '(_, cache') := Cache.clear_pattern cache (clock w1) "characters:*" in
              Some (Return synced_count, w1, db', cache')
          end
      end
  end.

Definition or_empty (s : option string) : string :=
  match s with Some s => s | None => EmptyString end.

Definition to_response (character : Character.t) : FilteredCharacterResponse.t :=
  {| FilteredCharacterResponse.id := Character.id character;
     FilteredCharacterResponse.name := Character.name character;
     FilteredCharacterResponse.status := Character.status character;
     FilteredCharacterResponse.species := Character.species character;
     FilteredCharacterResponse.origin_name := or_empty (Character.origin_name character);
     FilteredCharacterResponse.image_url := or_empty (Character.image_url character);
     FilteredCharacterResponse.created_at := Character.created_at character |}.

(** f"character:{character_id}" *)
Definition character_key (character_id : Z) : string :=
  "character:" +:+ pretty character_id.

Definition get_character_by_id (now : Z) (db : session) (cache : CacheManager)
    (character_id : Z) : result (option FilteredCharacterResponse.t) * CacheManager :=
  let cache_key := character_key character_id in
  match Cache.get cache now cache_key with
  | Some (CharacterDump c) => (Return (Some c), cache)
  | Some (ListingDump _ _) => (Raise TypeError, cache)
  | None =>
      match scalar_one_or_none (select_by_id (rows db) character_id) with
      | Raise e => (Raise e, cache)
      | Return None => (Return None, cache)
      | Return (Some character) =>
          let response := to_response character in
          let '(_, cache') :=
            Cache.set cache now cache_key (CharacterDump response) (Some 3600) in
          (Return (Some response), cache')
      end
  end.

End CharacterService.

(** ** A reference instance of the library calls

    Enough of [urllib.parse], [int] and pydantic to run the code on
    well-formed upstream data: links of the form [...?page=N], decimal
    numerals, records whose fields have the JSON type the model declares
    (a [created] given as a Unix timestamp). *)
Module Reference.

Definition digit_value (c : ascii) : option Z :=
  let n := nat_of_ascii c in
  if ((48 <=? n) && (n <=? 57))%nat then Some (Z.of_nat n - 48) else None.

Fixpoint digits (s : string) (acc : Z) : option Z :=
  match s with
  | EmptyString => Some acc
  | String c rest =>
      match digit_value c with
      | Some d => digits rest (10 * acc + d)
      | None => None
      end
  end.

Definition py_int (s : string) : option Z :=
  match s with
  | EmptyString => None
  | _ => digits s 0
  end.

(** The text of a query value: up to the next [&] or [#]. *)
Fixpoint value_text (s : string) : string :=
  match s with
  | EmptyString => EmptyString
  | String c rest =>
      if Ascii.eqb c "&" || Ascii.eqb c "#" then EmptyString
      else String c (value_text rest)
  end.

Fixpoint drop (n : nat) (s : string) : string :=
  match n, s with
  | S n', String _ rest => drop n' rest
  | _, _ => s
  end.

Fixpoint find_page (link : string) : option string :=
  if String.prefix "page=" link then
    match value_text (drop 5 link) with
    | EmptyString => None
    | v => Some v
    end
  else
    match link with
    | EmptyString => None
    | String _ rest => find_page rest
    end.

Definition query_page (link : string) : result (option string) :=
  Return (find_page link).

Definition field_str (fields : list (string * json)) (key : string) : option string :=
  match assoc key fields with
  | Some (JStr s) => Some s
  | _ => None
  end.

Definition field_int (fields : list (string * json)) (key : string) : option Z :=
  match assoc key fields with
  | Some (JNum n) => Some n
  | _ => None
  end.

Definition field_pair (fields : list (string * json)) (key : string)
    : option (string * string) :=
  match assoc key fields with
  | Some (JObj sub) =>
      match field_str sub "name", field_str sub "url" with
      | Some n, Some u => Some (n, u)
      | _, _ => None
      end
  | _ => None
  end.

Fixpoint strings_of (items : list json) : option (list string) :=
  match items with
  | [] => Some []
  | JStr s :: rest =>
      match strings_of rest with
      | Some l => Some (s :: l)
      | None => None
      end
  | _ => None
  end.

Definition field_strs (fields : list (string * json)) (key : string)
    : option (list string) :=
  match assoc key fields with
  | Some (JArr items) => strings_of items
  | _ => None
  end.

(** Every field of [CharacterResponse] is required but [type], which
    defaults to the empty string. *)
Definition model_validate (char_data : json) : option CharacterResponse.t :=
  match char_data with
  | JObj fields =>
      match field_int fields "id", field_str fields "name",
            field_str fields "status", field_str fields "species",
            field_str fields "gender", field_pair fields "origin",
            field_pair fields "location", field_str fields "image",
            field_strs fields "episode", field_str fields "url",
            field_int fields "created" with
      | Some id, Some name, Some status, Some species, Some gender,
        Some (oname, ourl), Some (lname, lurl), Some image, Some episode,
        Some url, Some created =>
          let type :=
            match assoc "type" fields with
            | None => Some EmptyString
            | Some (JStr s) => Some s
            | Some _ => None
            end in
          match type with
          | Some type =>
              Some {| CharacterResponse.id := id;
                      CharacterResponse.name := name;
                      CharacterResponse.status := status;
                      CharacterResponse.species := species;
                      CharacterResponse.type := type;
                      CharacterResponse.gender := gender;
                      CharacterResponse.origin :=
                        {| CharacterOrigin.name := oname; CharacterOrigin.url := ourl |};
                      CharacterResponse.location :=
                        {| CharacterLocation.name := lname; CharacterLocation.url := lurl |};
                      CharacterResponse.image := image;
                      CharacterResponse.episode := episode;
                      CharacterResponse.url := url;
                      CharacterResponse.created := created |}
          | None => None
          end
      | _, _, _, _, _, _, _, _, _, _, _ => None
      end
  | _ => None
  end.

(** Strings that need no escaping, joined as [json.dumps] does. *)
Definition quote : string := String (ascii_of_nat 34) EmptyString.

Fixpoint join (items : list string) : string :=
  match items with
  | [] => EmptyString
  | [s] => quote +:+ s +:+ quote
  | s :: rest => quote +:+ s +:+ quote +:+ ", " +:+ join rest
  end.

Definition json_dumps (items : list string) : string := "[" +:+ join items +:+ "]".

Definition lib : PyLib := Build_PyLib query_page py_int model_validate json_dumps.

End Reference.

(** ** The rest of app/rick_morty_client.py *)

(** The dict [health_check] returns: healthy with the count and the number
    of pages the upstream reports, or unhealthy with the error. *)
Inductive api_health : Type :=
| ApiHealthy (total_characters pages : json)
| ApiUnhealthy (error : exn).

Section RickMortyClientRest.
Context {lib : PyLib} (up : upstream).

(** f"character/{character_id}" *)
Definition character_endpoint (character_id : Z) : string :=
  "character/" +:+ pretty character_id.

(** [get_character]: only [RickMortyAPIError] is turned into [None]; the
    payload is unpacked with two stars, which needs a dict, and validated. *)
Definition get_character (character_id : Z) : M (option CharacterResponse.t) :=
  fun w =>
    let '(r, w1) :=
      _make_request up {| endpoint := character_endpoint character_id; params := [] |} w in
    match r with
    | Return data =>
        match data with
        | JObj _ =>
            match model_validate data with
            | Some c => (Return (Some c), w1)
            | None => (Raise ValueError, w1)
            end
        | _ => (Raise TypeError, w1)
        end
    | Raise (RickMortyAPIError _) => (Return None, w1)
    | Raise e => (Raise e, w1)
    end.

(** [health_check]: one request for the first page of characters; every
    exception ends in the unhealthy dict. *)
Definition health_check (w : world) : api_health * world :=
  let '(r, w1) := _make_request up {| endpoint := "character"; params := [] |} w in
  match r with
  | Raise e => (ApiUnhealthy e, w1)
  | Return data =>
      match dict_get data "info" (JObj []) with
      | Raise e => (ApiUnhealthy e, w1)
      | Return info =>
          match dict_get info "count" (JNum 0), dict_get info "pages" (JNum 0) with
          | Return count, Return pages => (ApiHealthy count pages, w1)
          | Raise e, _ => (ApiUnhealthy e, w1)
          | _, Raise e => (ApiUnhealthy e, w1)
          end
      end
  end.

End RickMortyClientRest.

(** ** The rest of app/cache.py *)

(** The status [CacheManager.health_check] reports. *)
Inductive cache_health := CacheHealthy | CacheUnhealthy | CacheDisconnected.

Module CacheManager.

(** [connect]: the client is created, then pinged; when the ping fails the
    exception is raised again and the client stays in place, marked as not
    connected.  [server] is the keyspace of the Redis at [settings.redis_url],
    [up] tells whether it answers. *)
Definition connect (server : redis) (up : bool) : result unit * CacheManager :=
  (if up then Return () else Raise DatabaseError,
   {| redis_client := Some server; _connected := up; reachable := up |}).

(** [delete]: [DEL] answers how many keys it removed; a key that has
    expired is not there any more. *)
Definition delete (cache : CacheManager) (now : Z) (key : string)
    : bool * CacheManager :=
  match Cache.usable cache with
  | None => (false, cache)
  | Some store =>
      let full_key := cache_prefix +:+ key in
      (match store !! full_key with
       | Some entry => Cache.live now entry
       | None => false
       end,
       Cache.with_store cache (base.delete full_key store))
  end.

(** [exists] *)
Definition exists_ (cache : CacheManager) (now : Z) (key : string) : bool :=
  match Cache.usable cache with
  | None => false
  | Some store =>
      match store !! (cache_prefix +:+ key) with
      | Some entry => Cache.live now entry
      | None => false
      end
  end.

(** [health_check]: it looks at the client and pings it; it does not look
    at [_connected]. *)
Definition health_check (cache : CacheManager) : cache_health :=
  match redis_client cache with
  | None => CacheDisconnected
  | Some _ => if reachable cache then CacheHealthy else CacheUnhealthy
  end.

End CacheManager.

(** ** The rest of app/services.py: the listing *)

Module CharacterService.
Section Listing.
(** How the database compares two names (its collation). *)
Context (collate : string -> string -> bool).

(** Sorting the rows by a comparison of the database. *)
Definition sort_rows (le : Character.t -> Character.t -> bool)
    (table : list Character.t) : list Character.t :=
  @merge_sort _ (fun a b => le a b = true)
              (fun a b => bool_eq_dec (le a b) true) table.

(** The column the query is ordered by: [name], [created_at], or [id] for
    anything else. *)
Definition column_le (sort_by : string) (a b : Character.t) : bool :=
  if String.eqb sort_by "name" then collate (Character.name a) (Character.name b)
  else if String.eqb sort_by "created_at"
       then Character.created_at a <=? Character.created_at b
       else Character.id a <=? Character.id b.

(** [order_by(asc(column))] or [order_by(desc(column))]; rows that compare
    equal keep the order of the table. *)
Definition order_by (sort_by sort_order : string) (table : list Character.t)
    : list Character.t :=
  if String.eqb (lower sort_order) "desc"
  then sort_rows (fun a b => column_le sort_by b a) table
  else sort_rows (column_le sort_by) table.

(** The cache key of a listing. *)
Definition listing_key (page per_page : Z) (sort_by sort_order : string) : string :=
  "characters:page:" +:+ pretty page +:+ ":per_page:" +:+ pretty per_page
  +:+ ":sort:" +:+ sort_by +:+ ":" +:+ sort_order.

(** [get_characters]: the cached listing when there is one; otherwise the
    page of the ordered table and the count of all rows, cached for 300
    seconds.  The database (PostgreSQL, by [settings.database_url]) rejects
    a negative OFFSET or LIMIT. *)
Definition get_characters (now : Z) (db : session) (cache : CacheManager)
    (page per_page : Z) (sort_by sort_order : string)
    : result (list FilteredCharacterResponse.t * Z) * CacheManager :=
  let cache_key := listing_key page per_page sort_by sort_order in
  match Cache.get cache now cache_key with
  | Some (ListingDump characters total) => (Return (characters, total), cache)
  | Some (CharacterDump _) => (Raise ValueError, cache)
  | None =>
      let offset := (page - 1) * per_page in
      if (offset <? 0) || (per_page <? 0) then (Raise DatabaseError, cache)
      else
        let characters :=
          take (Z.to_nat per_page)
               (drop (Z.to_nat offset) (order_by sort_by sort_order (rows db))) in
        let total := Z.of_nat (length (rows db)) in
        let character_responses := map to_response characters in
        let '(_, cache') :=
          Cache.set cache now cache_key (ListingDump character_responses total)
                    (Some 300) in
        (Return (character_responses, total), cache')
  end.

End Listing.
End CharacterService.

(** ** app/main.py: the endpoints

    The rate limiter and the metrics decorator around the endpoints are
    left out; they do not change what an endpoint answers. *)

(** What an endpoint does: it answers, or it raises [HTTPException]. *)
Inductive answer (A : Type) : Type :=
| Respond (a : A)
| HTTPException (status_code : Z).
Arguments Respond {A} a.
Arguments HTTPException {A} status_code.

(** The overall status of the health check. *)
Inductive health := healthy | degraded | unhealthy.

Module Main.

(** The body of the answer of [GET /characters]. *)
Record listing := {
  characters : list FilteredCharacterResponse.t;
  page : Z;
  per_page : Z;
  total : Z;
  total_pages : Z;
  has_next : bool;
  has_prev : bool
}.

Definition one_of (s : string) (allowed : list string) : bool :=
  existsb (String.eqb s) allowed.

Section Endpoints.
Context (collate : string -> string -> bool).

(** [GET /characters] *)
Definition get_characters (now : Z) (db : session) (cache : CacheManager)
    (page per_page : Z) (sort order : string) : answer listing * CacheManager :=
  if page <? 1 then (HTTPException 400, cache)
  else if (per_page <? 1) || (100 <? per_page) then (HTTPException 400, cache)
  else if negb (one_of sort ["id"; "name"; "created_at"]%string)
  then (HTTPException 400, cache)
  else if negb (one_of order ["asc"; "desc"]%string) then (HTTPException 400, cache)
  else
    match CharacterService.get_characters collate now db cache page per_page sort order with
    | (Return (characters, total), cache') =>
        let total_pages := (total + per_page - 1) / per_page in
        (Respond {| characters := characters;
                    page := page;
                    per_page := per_page;
                    total := total;
                    total_pages := total_pages;
                    has_next := page <? total_pages;
                    has_prev := 1 <? page |},
         cache')
    | (Raise _, cache') => (HTTPException 500, cache')
    end.

(** [GET /characters/{character_id}] *)
Definition get_character (now : Z) (db : session) (cache : CacheManager)
    (character_id : Z) : answer FilteredCharacterResponse.t * CacheManager :=
  if character_id <? 1 then (HTTPException 400, cache)
  else
    match get_character_by_id now db cache character_id with
    | (Return (Some character), cache') => (Respond character, cache')
    | (Return None, cache') => (HTTPException 404, cache')
    | (Raise _, cache') => (HTTPException 500, cache')
    end.

End Endpoints.

(** The way [healthcheck] lowers the overall status when a check other
    than the database check fails. *)
Definition lowered (overall_status : health) : health :=
  match overall_status with
  | healthy => degraded
  | _ => unhealthy
  end.

(** The overall status of [GET /healthcheck] from its four checks, in the
    order it runs them: database, cache, upstream API, data. *)
Definition overall (db_healthy cache_healthy api_healthy data_healthy : bool) : health :=
  let s := if db_healthy then healthy else unhealthy in
  let s := if cache_healthy then s else lowered s in
  let s := if api_healthy then s else lowered s in
  if data_healthy then s else lowered s.

(** [GET /healthcheck].  [db_healthy] is what [check_db_connection] finds,
    [data_healthy] whether [get_stats] returns; the cache and the upstream
    are asked through their own health checks.  An unhealthy overall status
    is answered with 503. *)
Definition healthcheck (up : upstream) (db_healthy data_healthy : bool)
    (cache : CacheManager) (w : world) : answer health * world :=
  let cache_healthy :=
    match CacheManager.health_check cache with
    | CacheHealthy => true
    | _ => false
    end in
  let '(api_status, w1) := health_check up w in
  let api_healthy :=
    match api_status with
    | ApiHealthy _ _ => true
    | ApiUnhealthy _ => false
    end in
  match overall db_healthy cache_healthy api_healthy data_healthy with
  | unhealthy => (HTTPException 503, w1)
  | s => (Respond s, w1)
  end.

End Main.

(** * Properties *)

(** ** Auxiliary definitions *)

(** The world after the logical calls [reqs], made one after the other. *)
Fixpoint call_seq (up : upstream) (reqs : list request) (w : world) : world :=
  match reqs with
  | [] => w
  | req :: rest => call_seq up rest (snd (_make_request up req w))
  end.

(** An upstream that answers 503 to the first request and 200 afterwards. *)
Definition recovering : upstream :=
  fun n _ =>
    match n with
    | O => {| outcome := HttpResponse 503 None; elapsed := 20 |}
    | S _ => {| outcome := HttpResponse 200 (Some (JObj [])); elapsed := 20 |}
    end.

(** An upstream that is down. *)
Definition down : upstream :=
  fun _ _ => {| outcome := TransportFailure; elapsed := 5 |}.

(** A process that has just started. *)
Definition boot : world :=
  {| clock := 0; sent := O; breaker := CB.new 0 |}.

Definition character_request : request :=
  {| endpoint := "character"; params := [] |}.

(** What holds of a breaker however it was driven: the half-open state is
    computed, never stored; failures are counted from zero; a stored open
    state means the count reached the threshold. *)
Definition breaker_inv (cb : CircuitBreaker) : Prop :=
  _state cb <> STATE_HALF_OPEN
  /\ 0 <= _failure_count cb
  /\ (_state cb = STATE_OPEN -> failure_threshold <= _failure_count cb).

(** A breaker that opened at time 0 after five failures, seen once the
    recovery timeout has passed. *)
Definition tripped : world :=
  {| clock := 30 * 1000;
     sent := 5%nat;
     breaker := {| _state := STATE_OPEN; _failure_count := 5; _opened := 0 |} |}.

(** *** Upstream data for the examples *)

Definition character_json (id : Z) (name origin_name : string) : json :=
  JObj [("id", JNum id);
        ("name", JStr name);
        ("status", JStr "Alive");
        ("species", JStr "Human");
        ("type", JStr EmptyString);
        ("gender", JStr "Male");
        ("origin", JObj [("name", JStr origin_name);
                         ("url", JStr "https://rickandmortyapi.com/api/location/1")]);
        ("location", JObj [("name", JStr "Citadel of Ricks");
                           ("url", JStr "https://rickandmortyapi.com/api/location/3")]);
        ("image", JStr "https://rickandmortyapi.com/api/character/avatar/1.jpeg");
        ("episode", JArr [JStr "https://rickandmortyapi.com/api/episode/1"]);
        ("url", JStr "https://rickandmortyapi.com/api/character/1");
        ("created", JNum 1509821326)]%string.

(** A record from Earth that lacks its required [id]. *)
Definition nameless_json : json :=
  JObj [("name", JStr "Nameless");
        ("origin", JObj [("name", JStr "Earth (C-137)")])]%string.

Definition page_json (results : list json) (next : json) : json :=
  JObj [("info", JObj [("count", JNum 2); ("pages", JNum 2); ("next", next)]);
        ("results", JArr results)]%string.

(** An upstream that serves [pages] in turn, each in 20 ms, and then
    answers 404. *)
Definition serving (pages : list json) : upstream :=
  fun n _ =>
    match nth_error pages n with
    | Some page => {| outcome := HttpResponse 200 (Some page); elapsed := 20 |}
    | None => {| outcome := HttpResponse 404 None; elapsed := 20 |}
    end.

Definition rick : json := character_json 1 "Rick Sanchez" "Earth (C-137)".
Definition rick_updated : json := character_json 1 "Rick Sanchez Updated" "Earth (C-137)".
Definition morty : json := character_json 2 "Morty Smith" "unknown".
Definition martian : json := character_json 3 "Marvin" "Mars".
Definition summer : json := character_json 4 "Summer Smith" "Earth (Replacement Dimension)".

Section CrawlSpec.
Context {lib : PyLib}.

(** The page number the next-page link of [data] parses to: none when the
    link is absent or empty, when it is not a string, when it cannot be
    parsed, or when it carries no page number. *)
Definition parsed_next_page (data : json) : option Z :=
  match dict_get data "info" (JObj []) with
  | Return info =>
      match dict_get info "next" JNull with
      | Return (JStr link) =>
          if String.eqb link EmptyString then None
          else match query_page link with
               | Return (Some s) => py_int s
               | _ => None
               end
      | _ => None
      end
  | Raise _ => None
  end.

(** What the filter keeps of one item whose origin name can be read: the
    validated record, when the name contains "earth" in any case. *)
Definition kept (char_data : json) : option CharacterResponse.t :=
  match origin_name_lower char_data with
  | Return origin_name =>
      if contains "earth" origin_name then model_validate char_data else None
  | Raise _ => None
  end.

(** Page [page], fetched in world [w], is processed and hands the crawl on:
    the upstream answers with [data], whose results are the non-empty list
    [items], each with an origin name that can be read, and whose next-page
    link parses to the greater page number [next]; [w'] is the world after
    the pause of 0.1 s that follows. *)
Definition advances (up : upstream) (page : Z) (w : world) (items : list json)
    (next : Z) (w' : world) : Prop :=
  exists data w1,
    get_characters up page None (Some "Alive"%string) (Some "Human"%string) None w
      = (Return data, w1)
    /\ dict_get data "results" (JArr []) = Return (JArr items)
    /\ items <> []
    /\ Forall (fun item => exists s, origin_name_lower item = Return s) items
    /\ parsed_next_page data = Some next
    /\ page < next
    /\ next <> 0
    /\ w' = sleep 100 w1.

(** The crawl processes the pages whose items are [pages], one after the
    other from page [page] in world [w], and is then about to fetch page
    [page'] in world [w']. *)
Fixpoint processed (up : upstream) (pages : list (list json)) (page : Z) (w : world)
    (page' : Z) (w' : world) : Prop :=
  match pages with
  | [] => page' = page /\ w' = w
  | items :: rest =>
      exists next w1,
        advances up page w items next w1 /\ processed up rest next w1 page' w'
  end.

End CrawlSpec.

Section SyncSpec.
Context {lib : PyLib}.

(** The row holds every field the upstream gave for the record. *)
Definition carries (row : Character.t) (api_char : CharacterResponse.t) : Prop :=
  Character.name row = CharacterResponse.name api_char
  /\ Character.status row = CharacterResponse.status api_char
  /\ Character.species row = CharacterResponse.species api_char
  /\ Character.type row = Some (CharacterResponse.type api_char)
  /\ Character.gender row = Some (CharacterResponse.gender api_char)
  /\ Character.origin_name row
     = Some (CharacterOrigin.name (CharacterResponse.origin api_char))
  /\ Character.origin_url row
     = Some (CharacterOrigin.url (CharacterResponse.origin api_char))
  /\ Character.location_name row
     = Some (CharacterLocation.name (CharacterResponse.location api_char))
  /\ Character.location_url row
     = Some (CharacterLocation.url (CharacterResponse.location api_char))
  /\ Character.image_url row = Some (CharacterResponse.image api_char)
  /\ Character.episode_urls row = Some (json_dumps (CharacterResponse.episode api_char))
  /\ Character.api_url row = Some (CharacterResponse.url api_char).

End SyncSpec.

(** *** Storage and cache for the examples *)

Definition no_faults : faults :=
  {| execute_fault := fun _ => None; commit_fault := None |}.

Definition commit_fails : faults :=
  {| execute_fault := fun _ => None; commit_fault := Some DatabaseError |}.

Definition empty_db : session := {| committed := []; rows := [] |}.

(** Rick as the reference validation reads him, and the row a first sync
    at time 20 writes for him. *)
Definition rick_response : CharacterResponse.t :=
  {| CharacterResponse.id := 1;
     CharacterResponse.name := "Rick Sanchez";
     CharacterResponse.status := "Alive";
     CharacterResponse.species := "Human";
     CharacterResponse.type := EmptyString;
     CharacterResponse.gender := "Male";
     CharacterResponse.origin :=
       {| CharacterOrigin.name := "Earth (C-137)";
          CharacterOrigin.url := "https://rickandmortyapi.com/api/location/1" |};
     CharacterResponse.location :=
       {| CharacterLocation.name := "Citadel of Ricks";
          CharacterLocation.url := "https://rickandmortyapi.com/api/location/3" |};
     CharacterResponse.image := "https://rickandmortyapi.com/api/character/avatar/1.jpeg";
     CharacterResponse.episode := ["https://rickandmortyapi.com/api/episode/1"%string];
     CharacterResponse.url := "https://rickandmortyapi.com/api/character/1";
     CharacterResponse.created := 1509821326 |}.

Definition rick_row : Character.t := new_char (lib := Reference.lib) rick_response 20.

Definition rick_db : session := {| committed := [rick_row]; rows := [rick_row] |}.

(** A cache manager that never connected. *)
Definition offline : CacheManager :=
  {| redis_client := None; _connected := false; reachable := false |}.

(** A cache manager connected to an empty Redis. *)
Definition online : CacheManager :=
  {| redis_client := Some ∅; _connected := true; reachable := true |}.

(** The cooldown [_make_request] sleeps before it surfaces a 429. *)
Definition cooldown (e : exn) : Z :=
  match e with
  | HTTPStatusError status_code => if status_code =? 429 then 60 * 1000 else 0
  | _ => 0
  end.

(** ** The transport and the retry policy *)

(** A reply that makes the [try] block of [_make_request] raise. *)
Definition failing (r : response) : bool :=
  match r with
  | HttpResponse status_code (Some _) => negb (is_success status_code)
  | HttpResponse _ None => true
  | TransportFailure => true
  end.

(** Every call of [reqs] meets a failing reply, the first being request
    number [n]. *)
Fixpoint all_failing (up : upstream) (reqs : list request) (n : nat) : Prop :=
  match reqs with
  | [] => True
  | req :: rest => failing (outcome (up n req)) = true /\ all_failing up rest (S n)
  end.

(** A reply that is a transport error: no response, or a status outside 2xx. *)
Definition transport_error (r : response) : option exn :=
  match r with
  | HttpResponse status_code _ =>
      if is_success status_code then None else Some (HTTPStatusError status_code)
  | TransportFailure => Some RequestError
  end.

(** Inputs and shorthands for the rest of the modules. *)

(** The request the crawl sends for page [page]. *)
Definition crawl_request (page : Z) : request :=
  {| endpoint := "character";
     params := [("page", JNum page); ("status", JStr "Alive");
                ("species", JStr "Human")]%string |}.

(** The request [health_check] sends. *)
Definition health_request : request := {| endpoint := "character"; params := [] |}.

(** The world after [n] health checks in a row. *)
Fixpoint health_checks (up : upstream) (n : nat) (w : world) : world :=
  match n with
  | O => w
  | S n' => health_checks up n' (snd (health_check up w))
  end.

(** An upstream that answers the crawl as [serving pages] does and every
    other request with a 500. *)
Definition crawl_only (pages : list json) : upstream :=
  fun n req =>
    match params req with
    | [] => {| outcome := HttpResponse 500 None; elapsed := 1 |}
    | _ => serving pages n req
    end.

(** A record whose origin is null. *)
Definition no_origin_json : json :=
  JObj [("id", JNum 9); ("name", JStr "Nobody"); ("origin", JNull)]%string.

(** An upstream that is down for its first [n] requests and then serves
    [pages]. *)
Definition outage (n : nat) (pages : list json) : upstream :=
  fun i req =>
    if Nat.ltb i n then {| outcome := TransportFailure; elapsed := 5 |}
    else serving pages (i - n)%nat req.

(** A cache that holds Rick under [character:1] until time 3600100. *)
Definition rick_cached : CacheManager :=
  snd (Cache.set online 100 "character:1" (CharacterDump (to_response rick_row)) None).

(** The row of the character numbered [i], written at time 0. *)
Definition numbered (i : Z) : Character.t :=
  new_char (lib := Reference.lib)
    {| CharacterResponse.id := i;
       CharacterResponse.name := "Character " +:+ pretty i;
       CharacterResponse.status := "Alive";
       CharacterResponse.species := "Human";
       CharacterResponse.type := EmptyString;
       CharacterResponse.gender := "Male";
       CharacterResponse.origin :=
         {| CharacterOrigin.name := "Earth"; CharacterOrigin.url := EmptyString |};
       CharacterResponse.location :=
         {| CharacterLocation.name := "Earth"; CharacterLocation.url := EmptyString |};
       CharacterResponse.image := "https://example.com/image.jpg";
       CharacterResponse.episode := [];
       CharacterResponse.url := EmptyString;
       CharacterResponse.created := 0 |} 0.

(** Five stored characters, not in the order of their ids. *)
Definition five_db : session :=
  let table := [numbered 4; numbered 1; numbered 5; numbered 3; numbered 2] in
  {| committed := table; rows := table |}.

(** The records of a listing, none when the read raised. *)
Definition listed (r : result (list FilteredCharacterResponse.t * Z) * CacheManager)
    : list FilteredCharacterResponse.t :=
  match fst r with
  | Return (characters, _) => characters
  | Raise _ => []
  end.

(** The number of checks that failed. *)
Definition failures (checks : list bool) : nat := length (List.filter negb checks).

(** The records of a sync whose lookup does not fail, [i] being the number
    of the first. *)
Fixpoint survivors (f : faults) (i : nat) (api_characters : list CharacterResponse.t)
    : list CharacterResponse.t :=
  match api_characters with
  | [] => []
  | api_char :: rest =>
      match execute_fault f i with
      | None => api_char :: survivors f (S i) rest
      | Some _ => survivors f (S i) rest
      end
  end.

(** Lookups fail for the second record of a sync. *)
Definition second_fails : faults :=
  {| execute_fault := fun i => match i with 1%nat => Some DatabaseError | _ => None end;
     commit_fault := None |}.

Definition summer_response : CharacterResponse.t :=
  {| CharacterResponse.id := 4;
     CharacterResponse.name := "Summer Smith";
     CharacterResponse.status := "Alive";
     CharacterResponse.species := "Human";
     CharacterResponse.type := EmptyString;
     CharacterResponse.gender := "Female";
     CharacterResponse.origin :=
       {| CharacterOrigin.name := "Earth (Replacement Dimension)";
          CharacterOrigin.url := EmptyString |};
     CharacterResponse.location :=
       {| CharacterLocation.name := "Earth (Replacement Dimension)";
          CharacterLocation.url := EmptyString |};
     CharacterResponse.image := EmptyString;
     CharacterResponse.episode := [];
     CharacterResponse.url := EmptyString;
     CharacterResponse.created := 0 |}.

Section ClientFacts.
Context {lib : PyLib} (up : upstream).

Lemma try_request_world req w :
  sent (snd (try_request up req w)) = S (sent w)
  /\ breaker (snd (try_request up req w)) = breaker w
  /\ clock (snd (try_request up req w)) = clock w + elapsed (up (sent w) req).
Proof.
  unfold try_request, client_get.
  destruct (outcome (up (sent w) req)) as [code body|]; simpl.
  - destruct (is_success code); [destruct body|]; simpl; auto.
  - auto.
Qed.

Lemma body_world req w :
  sent (snd (_make_request_body up req w)) = S (sent w)
  /\ breaker (snd (_make_request_body up req w)) = breaker w.
Proof.
  unfold _make_request_body.
  pose proof (try_request_world req w) as (Hs & Hb & _).
  destruct (try_request up req w) as [r w1]; simpl in *.
  destruct r as [a|e]; simpl; auto.
  destruct e; simpl; auto.
  destruct (status_code =? 429); simpl; auto.
Qed.

(** What leaves the body is never an exception the retry predicate selects. *)
Lemma body_raises_unselected req w e :
  fst (_make_request_body up req w) = Raise e -> retry_if_exception_type e = false.
Proof.
  unfold _make_request_body, try_request, client_get.
  destruct (outcome (up (sent w) req)) as [code body|]; simpl.
  - destruct (is_success code); [destruct body|]; simpl;
      intros H; inversion H; reflexivity.
  - intros H; inversion H; reflexivity.
Qed.

(** So the retry loop around the body is the body. *)
Lemma retry_body req w :
  retry (_make_request_body up req) w = _make_request_body up req w.
Proof.
  unfold retry. simpl.
  pose proof (body_raises_unselected req w) as H.
  destruct (_make_request_body up req w) as [r w1]; simpl in *.
  destruct r as [a|e]; [reflexivity|].
  rewrite (H e eq_refl). reflexivity.
Qed.

(** The body, by reply. *)
Lemma body_success req w status_code data :
  outcome (up (sent w) req) = HttpResponse status_code (Some data) ->
  is_success status_code = true ->
  fst (_make_request_body up req w) = Return data.
Proof.
  intros Ho Hs. unfold _make_request_body, try_request, client_get.
  rewrite Ho, Hs. reflexivity.
Qed.

Lemma body_failing req w :
  failing (outcome (up (sent w) req)) = true ->
  exists e, fst (_make_request_body up req w) = Raise e.
Proof.
  unfold failing, _make_request_body, try_request, client_get.
  destruct (outcome (up (sent w) req)) as [code body|]; simpl.
  - destruct body as [data|].
    + destruct (is_success code); simpl; [discriminate|]. eauto.
    + destruct (is_success code); simpl; eauto.
  - eauto.
Qed.

Lemma body_transport_error req w e :
  transport_error (outcome (up (sent w) req)) = Some e ->
  fst (_make_request_body up req w) = Raise (RickMortyAPIError e).
Proof.
  unfold transport_error, _make_request_body, try_request, client_get.
  destruct (outcome (up (sent w) req)) as [code body|]; simpl.
  - destruct (is_success code); [discriminate|].
    intros H; inversion H; subst. reflexivity.
  - intros H; inversion H; subst. reflexivity.
Qed.

(** [_make_request] when the breaker lets the call through. *)
Lemma make_request_admitted req w :
  CB.opened (breaker w) (clock w) = false ->
  _make_request up req w =
    let '(r, w1) := _make_request_body up req w in
    match r with
    | Return a => (Return a, set_breaker (CB.call_succeeded (breaker w1)) w1)
    | Raise e => (Raise e, set_breaker (CB.call_failed (breaker w1) (clock w1)) w1)
    end.
Proof.
  intros Hopen. unfold _make_request, circuit. rewrite Hopen, retry_body.
  reflexivity.
Qed.

Lemma make_request_refused req w :
  CB.opened (breaker w) (clock w) = true ->
  _make_request up req w = (Raise CircuitBreakerError, w).
Proof.
  intros Hopen. unfold _make_request, circuit. rewrite Hopen. reflexivity.
Qed.

(** Every call the breaker admits sends exactly one request. *)
Lemma make_request_single_attempt req w :
  CB.opened (breaker w) (clock w) = false ->
  sent (snd (_make_request up req w)) = S (sent w).
Proof.
  intros Hopen. rewrite make_request_admitted by assumption.
  pose proof (body_world req w) as [Hs _].
  destruct (_make_request_body up req w) as [r w1]; simpl in *.
  destruct r; simpl; assumption.
Qed.

End ClientFacts.

(** ** C1: the retry policy *)

Section RetryFacts.
Context {A : Type} (fn : M A).
Hypothesis one_request : forall w, sent (snd (fn w)) = S (sent w).

(** The policy by itself: around a call that sends one request per attempt,
    it makes at least one attempt and at most three. *)
Lemma retrying_attempts budget : forall attempt_number w,
  (sent w < sent (snd (retrying budget attempt_number fn w))
   <= sent w + S (max_attempt_number - attempt_number))%nat.
Proof.
  induction budget as [|budget IH]; intros attempt_number w;
    cbn [retrying]; pose proof (one_request w) as Hone;
    destruct (fn w) as [r w1]; cbn [snd] in Hone.
  - destruct r as [a|e]; cbn [snd]; [lia|].
    destruct (retry_if_exception_type e); [|cbn [snd]; lia].
    destruct (stop_after_attempt attempt_number); cbn [snd]; lia.
  - destruct r as [a|e]; cbn [snd]; [lia|].
    destruct (retry_if_exception_type e); [|cbn [snd]; lia].
    unfold stop_after_attempt.
    destruct (Nat.leb_spec max_attempt_number attempt_number) as [Hstop|Hgo];
      [cbn [snd]; lia|].
    specialize (IH (S attempt_number)
                   (sleep (1000 * wait_exponential attempt_number) w1)).
    cbn [sleep sent] in IH. lia.
Qed.

Lemma retry_attempts w :
  (sent w < sent (snd (retry fn w)) <= sent w + 3)%nat.
Proof. exact (retrying_attempts max_attempt_number 1%nat w). Qed.

End RetryFacts.

(** Around the [try] block alone the policy does retry: a 503 followed by a
    200 is a success after a wait of 4 seconds, and an upstream that stays
    down costs three attempts and ends in [RetryError]. *)
Example retry_around_the_try_block_recovers :
  retry (try_request recovering character_request) boot
  = (Return (JObj []), {| clock := 20 + 4000 + 20; sent := 2; breaker := CB.new 0 |}).
Proof. vm_compute. reflexivity. Qed.

Example retry_around_the_try_block_gives_up :
  retry (try_request down character_request) boot
  = (Raise (RetryError RequestError),
     {| clock := 5 + 4000 + 5 + 4000 + 5; sent := 3; breaker := CB.new 0 |}).
Proof. vm_compute. reflexivity. Qed.


(** C1 (code defect).  The claim has transport errors retried, up to three
    attempts in all.  In the code a transport error ends the logical call at
    once: the body of [_make_request] turns both httpx errors into
    [RickMortyAPIError], which the retry predicate does not select.  For
    every upstream, request and world whose breaker admits the call: if the
    first reply is a transport error, the call raises [RickMortyAPIError]
    around it, one request was sent, and no time was spent waiting for a
    second attempt, whatever the upstream would have answered next. *)
Theorem transport_error_ends_call_after_one_attempt
    (up : upstream) (req : request) (w : world) (e : exn) :
  CB.opened (breaker w) (clock w) = false ->
  transport_error (outcome (up (sent w) req)) = Some e ->
  fst (_make_request up req w) = Raise (RickMortyAPIError e)
  /\ sent (snd (_make_request up req w)) = S (sent w)
  /\ clock (snd (_make_request up req w))
       = clock w + elapsed (up (sent w) req)
         + cooldown e.
Proof.
  intros Hopen He.
  rewrite make_request_admitted by assumption.
  unfold _make_request_body, try_request, client_get, transport_error in *.
  destruct (outcome (up (sent w) req)) as [code body|]; simpl in *.
  - destruct (is_success code); [discriminate|].
    inversion He; subst e; clear He.
    destruct (code =? 429) eqn:Hcode; simpl; rewrite ?Hcode;
      (split; [reflexivity|split; [reflexivity|lia]]).
  - inversion He; subst e; clear He. simpl.
    split; [reflexivity|split; [reflexivity|lia]].
Qed.

(** The call against an upstream that would have answered the second
    attempt: one request, no retry. *)
Lemma transport_error_ends_call_after_one_attempt_witness :
  failing (outcome (recovering 1%nat character_request)) = false
  /\ fst (_make_request recovering character_request boot)
       = Raise (RickMortyAPIError (HTTPStatusError 503))
  /\ sent (snd (_make_request recovering character_request boot)) = 1%nat.
Proof.
  split; [reflexivity|].
  pose proof (transport_error_ends_call_after_one_attempt
                recovering character_request boot (HTTPStatusError 503)
                eq_refl eq_refl) as (Hr & Hs & _).
  split; assumption.
Defined.

(** ** C2 and C3: the circuit breaker *)

Section BreakerFacts.
Context (up : upstream).

Lemma closed_not_opened cb now :
  _state cb = STATE_CLOSED -> CB.opened cb now = false.
Proof. intros H. unfold CB.opened, CB.state. rewrite H. reflexivity. Qed.

Lemma open_within_window cb now :
  _state cb = STATE_OPEN -> now < _opened cb + recovery_timeout ->
  CB.state cb now = STATE_OPEN /\ CB.opened cb now = true.
Proof.
  intros H Hn. unfold CB.opened, CB.state, CB.open_remaining. rewrite H. simpl.
  destruct (Z.leb_spec (_opened cb + recovery_timeout - now) 0); [lia|].
  split; reflexivity.
Qed.

Lemma open_after_window cb now :
  _state cb = STATE_OPEN -> _opened cb + recovery_timeout <= now ->
  CB.state cb now = STATE_HALF_OPEN /\ CB.opened cb now = false.
Proof.
  intros H Hn. unfold CB.opened, CB.state, CB.open_remaining. rewrite H. simpl.
  destruct (Z.leb_spec (_opened cb + recovery_timeout - now) 0); [|lia].
  split; reflexivity.
Qed.

Lemma failing_call req w :
  CB.opened (breaker w) (clock w) = false ->
  failing (outcome (up (sent w) req)) = true ->
  exists e w',
    _make_request up req w = (Raise e, w')
    /\ sent w' = S (sent w)
    /\ breaker w' = CB.call_failed (breaker w) (clock w').
Proof.
  intros Hopen Hfail. rewrite make_request_admitted by assumption.
  destruct (body_failing up req w Hfail) as [e He].
  pose proof (body_world up req w) as [Hs Hb].
  destruct (_make_request_body up req w) as [r w1]; simpl in *. subst r.
  eexists; eexists; split; [reflexivity|]. simpl. rewrite Hb. auto.
Qed.

Lemma successful_call req w status_code data :
  CB.opened (breaker w) (clock w) = false ->
  outcome (up (sent w) req) = HttpResponse status_code (Some data) ->
  is_success status_code = true ->
  exists w',
    _make_request up req w = (Return data, w')
    /\ sent w' = S (sent w)
    /\ breaker w' = CB.call_succeeded (breaker w).
Proof.
  intros Hopen Ho Hs. rewrite make_request_admitted by assumption.
  pose proof (body_success up req w status_code data Ho Hs) as Hr.
  pose proof (body_world up req w) as [Hsent Hb].
  destruct (_make_request_body up req w) as [r w1]; simpl in *. subst r.
  eexists; split; [reflexivity|]. simpl. rewrite Hb. auto.
Qed.

(** The invariant holds at start and after every call. *)
Lemma breaker_inv_new now : breaker_inv (CB.new now).
Proof. unfold breaker_inv, CB.new; simpl. repeat split; [discriminate|lia|discriminate]. Qed.

Lemma breaker_inv_succeeded cb : breaker_inv (CB.call_succeeded cb).
Proof. unfold breaker_inv, CB.call_succeeded; simpl. repeat split; [discriminate|lia|discriminate]. Qed.

Lemma breaker_inv_failed cb now : breaker_inv cb -> breaker_inv (CB.call_failed cb now).
Proof.
  intros (Hh & Hc & Ho). unfold breaker_inv, CB.call_failed.
  destruct (Z.leb_spec failure_threshold (_failure_count cb + 1)); simpl.
  - repeat split; [discriminate|lia|auto].
  - repeat split; [assumption|lia|].
    intros Hopen. specialize (Ho Hopen). lia.
Qed.

Lemma make_request_inv req w :
  breaker_inv (breaker w) -> breaker_inv (breaker (snd (_make_request up req w))).
Proof.
  intros Hinv. destruct (CB.opened (breaker w) (clock w)) eqn:Hopen.
  - rewrite make_request_refused by assumption. assumption.
  - rewrite make_request_admitted by assumption.
    pose proof (body_world up req w) as [_ Hb].
    destruct (_make_request_body up req w) as [r w1]; simpl in *.
    destruct r; simpl; rewrite Hb.
    + apply breaker_inv_succeeded.
    + apply breaker_inv_failed, Hinv.
Qed.

Lemma call_seq_app l1 l2 w :
  call_seq up (l1 ++ l2) w = call_seq up l2 (call_seq up l1 w).
Proof. revert w. induction l1 as [|req l1 IH]; intros w; simpl; auto. Qed.

Lemma all_failing_app l1 l2 n :
  all_failing up (l1 ++ l2) n <->
  all_failing up l1 n /\ all_failing up l2 (n + length l1)%nat.
Proof.
  revert n. induction l1 as [|req l1 IH]; intros n; simpl.
  - rewrite Nat.add_0_r. tauto.
  - rewrite IH. replace (S n + length l1)%nat with (n + S (length l1))%nat by lia.
    tauto.
Qed.

(** Below the threshold, failures are counted and the breaker stays closed. *)
Lemma failing_calls_below_threshold reqs : forall w,
  _state (breaker w) = STATE_CLOSED ->
  _failure_count (breaker w) + Z.of_nat (length reqs) < failure_threshold ->
  all_failing up reqs (sent w) ->
  _state (breaker (call_seq up reqs w)) = STATE_CLOSED
  /\ _failure_count (breaker (call_seq up reqs w))
       = _failure_count (breaker w) + Z.of_nat (length reqs)
  /\ sent (call_seq up reqs w) = (sent w + length reqs)%nat.
Proof.
  induction reqs as [|req reqs IH]; intros w Hc Hn Hf; simpl in *.
  - repeat split; [assumption|lia|lia].
  - destruct Hf as [Hf1 Hf].
    destruct (failing_call req w (closed_not_opened _ _ Hc) Hf1)
      as (e & w' & Heq & Hs & Hb).
    rewrite Heq; simpl.
    assert (Hb' : breaker w' = {| _state := STATE_CLOSED;
                                  _failure_count := _failure_count (breaker w) + 1;
                                  _opened := _opened (breaker w) |}).
    { rewrite Hb. unfold CB.call_failed.
      destruct (Z.leb_spec failure_threshold (_failure_count (breaker w) + 1)); [lia|].
      rewrite Hc. reflexivity. }
    destruct (IH w') as (H1 & H2 & H3).
    + rewrite Hb'. reflexivity.
    + rewrite Hb'. simpl. lia.
    + rewrite Hs. assumption.
    + rewrite H1, H2, H3, Hb', Hs. simpl. repeat split; lia.
Qed.

End BreakerFacts.

Lemma call_seq_snoc up l r w :
  call_seq up (l ++ [r]) w = snd (_make_request up r (call_seq up l w)).
Proof. rewrite call_seq_app. reflexivity. Qed.

(** C2.  Five logical calls in a row that fail take a closed breaker with no
    failure counted to open: it is still closed after the fourth, open after
    the fifth, and the recovery window starts at that moment.  From then on,
    at any time before the window ends, a call raises [CircuitBreakerError]
    and leaves the world as it was: no request is sent, no time passes. *)
Theorem breaker_opens_at_threshold_then_fails_fast
    (up : upstream) (reqs : list request) (w : world) :
  _state (breaker w) = STATE_CLOSED ->
  _failure_count (breaker w) = 0 ->
  length reqs = 5%nat ->
  all_failing up reqs (sent w) ->
  let w5 := call_seq up reqs w in
  _state (breaker (call_seq up (take 4 reqs) w)) = STATE_CLOSED
  /\ _state (breaker w5) = STATE_OPEN
  /\ _opened (breaker w5) = clock w5
  /\ sent w5 = (sent w + 5)%nat
  /\ forall req w',
       breaker w' = breaker w5 ->
       clock w' < _opened (breaker w5) + recovery_timeout ->
       _make_request up req w' = (Raise CircuitBreakerError, w').
Proof.
  intros Hc H0 Hlen Hf.
  destruct reqs as [|r1 [|r2 [|r3 [|r4 [|r5 [|r6 rest]]]]]]; try discriminate.
  clear Hlen.
  change [r1; r2; r3; r4; r5] with ([r1; r2; r3; r4] ++ [r5]) in Hf |- *.
  apply all_failing_app in Hf. destruct Hf as [Hf4 Hf5].
  destruct (failing_calls_below_threshold up [r1; r2; r3; r4] w Hc) as (Hc4 & Hn4 & Hs4).
  { rewrite H0. unfold failure_threshold. cbn [length]. lia. }
  { assumption. }
  cbn [length] in Hn4, Hs4, Hf5.
  change (take 4 ([r1; r2; r3; r4] ++ [r5])) with [r1; r2; r3; r4].
  intros w5. subst w5. rewrite call_seq_snoc.
  remember (call_seq up [r1; r2; r3; r4] w) as w4 eqn:Hw4. clear Hw4 Hf4.
  split; [assumption|].
  cbn [all_failing] in Hf5. destruct Hf5 as [Hf5 _].
  rewrite <- Hs4 in Hf5.
  destruct (failing_call up r5 w4 (closed_not_opened _ _ Hc4) Hf5)
    as (e & w5 & Heq & Hs5 & Hb5).
  rewrite Heq. cbn [snd].
  assert (Hb : breaker w5 = {| _state := STATE_OPEN; _failure_count := 5;
                               _opened := clock w5 |}).
  { rewrite Hb5. unfold CB.call_failed. rewrite Hn4, H0. reflexivity. }
  rewrite Hb. cbn [_state _opened].
  split; [reflexivity|]. split; [reflexivity|]. split; [lia|].
  intros req w' Hw' Hclock.
  apply make_request_refused. rewrite Hw'.
  apply open_within_window; [reflexivity|assumption].
Qed.

(** Five calls against an upstream that is down, then a sixth. *)
Lemma breaker_opens_at_threshold_then_fails_fast_witness :
  let reqs := [character_request; character_request; character_request;
               character_request; character_request] in
  let w5 := call_seq down reqs boot in
  _state (breaker w5) = STATE_OPEN
  /\ sent w5 = 5%nat
  /\ _make_request down character_request (sleep (29 * 1000) w5)
       = (Raise CircuitBreakerError, sleep (29 * 1000) w5).
Proof.
  intros reqs w5.
  destruct (breaker_opens_at_threshold_then_fails_fast down reqs boot
              eq_refl eq_refl eq_refl) as (_ & Ho & Ht & Hs & Hfast).
  { vm_compute. tauto. }
  split; [exact Ho|]. split; [exact Hs|].
  apply Hfast; [reflexivity|]. vm_compute. reflexivity.
Defined.

(** C3.  A breaker that is open and whose recovery timeout has passed is
    half open: the next call is let through and sends one request.  If it
    succeeds the breaker is closed with a failure count of 0.  If it fails
    the breaker is open again with the window restarted at the time of the
    failure, so that every call before that new window ends is refused
    without a request.  In both cases the breaker is no longer half open
    when the trial call ends: one trial call, not more. *)
Theorem half_open_admits_one_trial_call
    (up : upstream) (req : request) (w : world) :
  breaker_inv (breaker w) ->
  _state (breaker w) = STATE_OPEN ->
  _opened (breaker w) + recovery_timeout <= clock w ->
  let r := fst (_make_request up req w) in
  let w' := snd (_make_request up req w) in
  CB.state (breaker w) (clock w) = STATE_HALF_OPEN
  /\ sent w' = S (sent w)
  /\ CB.state (breaker w') (clock w') <> STATE_HALF_OPEN
  /\ (forall status_code data,
        outcome (up (sent w) req) = HttpResponse status_code (Some data) ->
        is_success status_code = true ->
        r = Return data
        /\ _state (breaker w') = STATE_CLOSED
        /\ _failure_count (breaker w') = 0)
  /\ (failing (outcome (up (sent w) req)) = true ->
        (exists e, r = Raise e)
        /\ _state (breaker w') = STATE_OPEN
        /\ _opened (breaker w') = clock w'
        /\ forall req' w'',
             breaker w'' = breaker w' ->
             clock w'' < clock w' + recovery_timeout ->
             _make_request up req' w'' = (Raise CircuitBreakerError, w'')).
Proof.
  intros (Hh & Hcount & Hthr) Hopen Hwin r w'.
  destruct (open_after_window _ _ Hopen Hwin) as [Hhalf Hadm].
  specialize (Hthr Hopen).
  assert (Hfailed : forall now, CB.call_failed (breaker w) now
            = {| _state := STATE_OPEN;
                 _failure_count := _failure_count (breaker w) + 1;
                 _opened := now |}).
  { intros now. unfold CB.call_failed.
    destruct (Z.leb_spec failure_threshold (_failure_count (breaker w) + 1)); [reflexivity|lia]. }
  split; [assumption|].
  split; [apply make_request_single_attempt; assumption|].
  split.
  - subst w'. rewrite make_request_admitted by assumption.
    pose proof (body_world up req w) as [_ Hb].
    destruct (_make_request_body up req w) as [r1 w1]; cbn [snd] in *.
    destruct r1; cbn [snd set_breaker breaker clock]; rewrite Hb.
    + unfold CB.state, CB.call_succeeded; cbn. discriminate.
    + rewrite Hfailed. unfold CB.state, CB.open_remaining; cbn [_state _opened cb_state_eqb andb].
      destruct (Z.leb_spec (clock w1 + recovery_timeout - clock w1) 0);
        [unfold recovery_timeout in *; lia|discriminate].
  - split.
    + intros code data Ho Hs.
      destruct (successful_call up req w code data Hadm Ho Hs) as (w1 & Heq & _ & Hb).
      subst r w'. rewrite Heq. cbn [fst snd]. rewrite Hb.
      repeat split.
    + intros Hf.
      destruct (failing_call up req w Hadm Hf) as (e & w1 & Heq & _ & Hb).
      subst r w'. rewrite Heq. cbn [fst snd]. rewrite Hb, Hfailed. cbn [_state _opened].
      split; [eauto|]. split; [reflexivity|]. split; [reflexivity|].
      intros req' w'' Hw'' Hclock.
      apply make_request_refused. rewrite Hw''.
      apply open_within_window; [reflexivity|assumption].
Qed.

(** The trial call on a tripped breaker: against an upstream that answers,
    and against one that is still down. *)
Lemma half_open_admits_one_trial_call_witness :
  (fst (_make_request recovering character_request tripped) = Return (JObj [])
   /\ _state (breaker (snd (_make_request recovering character_request tripped)))
        = STATE_CLOSED
   /\ _failure_count (breaker (snd (_make_request recovering character_request tripped)))
        = 0)
  /\ (_state (breaker (snd (_make_request down character_request tripped)))
        = STATE_OPEN
      /\ _opened (breaker (snd (_make_request down character_request tripped)))
           = 30 * 1000 + 5).
Proof.
  assert (Hinv : breaker_inv (breaker tripped)).
  { unfold breaker_inv, tripped, failure_threshold; cbn.
    repeat split; [discriminate|lia|lia]. }
  assert (Hwin : _opened (breaker tripped) + recovery_timeout <= clock tripped).
  { vm_compute. discriminate. }
  split.
  - destruct (half_open_admits_one_trial_call recovering character_request tripped
                Hinv eq_refl Hwin) as (_ & _ & _ & Hok & _).
    exact (Hok 200 (JObj []) eq_refl eq_refl).
  - destruct (half_open_admits_one_trial_call down character_request tripped
                Hinv eq_refl Hwin) as (_ & _ & _ & _ & Hko).
    destruct (Hko eq_refl) as (_ & Ho & Ht & _).
    split; [exact Ho|]. rewrite Ht. vm_compute. reflexivity.
Defined.

(** ** C4, C5 and C8: the crawl *)

Section CrawlFacts.
Context {lib : PyLib} (up : upstream).

(** A page number handed on by [_extract_next_page_number] is the one the
    link parses to and is greater than the current page, unless it is 0. *)
Lemma extract_next_page_some data page n :
  _extract_next_page_number data page = Return (Some n) ->
  (parsed_next_page data = Some n /\ page < n) \/ n = 0.
Proof.
  unfold _extract_next_page_number, parsed_next_page.
  destruct (dict_get data "info" (JObj [])) as [info|e]; [|discriminate].
  destruct (dict_get info "next" JNull) as [next_link|e]; [|discriminate].
  destruct (truthy next_link) eqn:Ht; cbn [negb]; [|discriminate].
  destruct next_link as [| | |link| |]; try discriminate.
  cbn [truthy] in Ht. apply negb_true_iff in Ht. rewrite Ht.
  destruct (query_page link) as [[s|]|e]; try discriminate.
  - destruct (py_int s) as [m|]; [|discriminate].
    destruct (Z.leb_spec m page) as [Hle|Hgt]; [discriminate|].
    intros H; inversion H; subst. left. split; [reflexivity|assumption].
  - destruct (Z.leb_spec 0 page) as [Hle|Hgt]; [discriminate|].
    intros H; inversion H; subst. right. reflexivity.
Qed.

(** The crawl only moves to a greater page number. *)
Lemma crawl_page_next page acc w n acc' w' :
  crawl_page up page acc w = (Return (Next n), acc', w') -> page < n.
Proof.
  unfold crawl_page.
  destruct (get_characters up page None (Some "Alive"%string) (Some "Human"%string) None w)
    as [[data|e] w1]; [|discriminate].
  destruct (dict_get data "results" (JArr [])) as [characters|e]; [|discriminate].
  destruct (truthy characters); cbn [negb]; [|discriminate].
  destruct (_filter_earth_characters characters) as [earth|e]; [|discriminate].
  destruct (_extract_next_page_number data page) as [[m|]|e] eqn:Hnext; try discriminate.
  destruct (Z.eqb_spec m 0) as [Hm|Hm]; [discriminate|].
  intros H; inversion H; subst.
  destruct (extract_next_page_some _ _ _ Hnext) as [[_ Hlt]|H0]; [assumption|contradiction].
Qed.

(** What one turn of the loop returns has the list it was given in front. *)
Lemma crawl_page_extends page acc w r acc' w' :
  crawl_page up page acc w = (r, acc', w') -> exists more, acc' = acc ++ more.
Proof.
  unfold crawl_page.
  destruct (get_characters up page None (Some "Alive"%string) (Some "Human"%string) None w)
    as [[data|e] w1].
  2:{ intros H; inversion H; subst. exists []. symmetry; apply app_nil_r. }
  destruct (dict_get data "results" (JArr [])) as [characters|e].
  2:{ intros H; inversion H; subst. exists []. symmetry; apply app_nil_r. }
  destruct (truthy characters); cbn [negb].
  2:{ intros H; inversion H; subst. exists []. symmetry; apply app_nil_r. }
  destruct (_filter_earth_characters characters) as [earth|e].
  2:{ intros H; inversion H; subst. exists []. symmetry; apply app_nil_r. }
  destruct (_extract_next_page_number data page) as [[m|]|e];
    [destruct (m =? 0)| |]; intros H; inversion H; subst; eauto.
Qed.

(** The crawl hands back the list it started from, then what it found. *)
Lemma crawl_loop_extends fuel : forall page acc w r w',
  crawl_loop up fuel page acc w = Some (r, w') ->
  exists more, r = Return (acc ++ more).
Proof.
  induction fuel as [|fuel IH]; intros page acc w r w' H; [discriminate|].
  cbn [crawl_loop] in H.
  destruct (crawl_page up page acc w) as [[r1 acc1] w1] eqn:Hpage.
  destruct (crawl_page_extends _ _ _ _ _ _ Hpage) as [more ->].
  destruct r1 as [[|n]|e].
  - inversion H; subst. eauto.
  - destruct (IH _ _ _ _ _ H) as [more' ->]. exists (more ++ more').
    rewrite app_assoc. reflexivity.
  - destruct e; inversion H; subst; eauto.
Qed.

(** The crawl ends within [fuel] pages whenever the page numbers the
    upstream advertises stay below a bound. *)
Lemma crawl_terminates_when_pages_bounded (last : Z) :
  (forall page acc w n acc' w',
      crawl_page up page acc w = (Return (Next n), acc', w') -> n <= last) ->
  forall fuel page acc w,
    (Z.to_nat (last - page) < fuel)%nat ->
    exists l w', crawl_loop up fuel page acc w = Some (Return l, w').
Proof.
  intros Hbound. induction fuel as [|fuel IH]; intros page acc w Hfuel; [lia|].
  cbn [crawl_loop].
  destruct (crawl_page up page acc w) as [[r1 acc1] w1] eqn:Hpage.
  destruct r1 as [[|n]|e].
  - eauto.
  - pose proof (crawl_page_next _ _ _ _ _ _ Hpage) as Hlt.
    pose proof (Hbound _ _ _ _ _ _ Hpage) as Hle.
    apply IH. lia.
  - destruct e; eauto.
Qed.

(** The loop of the filter, for items whose origin name can be read. *)
Lemma filter_loop_kept items : forall filtered,
  Forall (fun item => exists s, origin_name_lower item = Return s) items ->
  filter_loop items filtered = Return (filtered ++ omap kept items).
Proof.
  induction items as [|item items IH]; intros filtered Hall.
  - cbn. rewrite app_nil_r. reflexivity.
  - inversion Hall as [|? ? [s Hs] Hrest]; subst.
    change (omap kept (item :: items))
      with (match kept item with
            | Some c => c :: omap kept items
            | None => omap kept items
            end).
    cbn [filter_loop]. unfold kept at 1. rewrite Hs.
    destruct (contains "earth" s).
    + destruct (model_validate item) as [c|].
      * rewrite IH by assumption. rewrite <- app_assoc. reflexivity.
      * apply IH; assumption.
    + apply IH; assumption.
Qed.

(** The filter raises at the first item whose origin name cannot be read. *)
Lemma filter_loop_unreadable good : forall bad rest filtered e,
  Forall (fun item => exists s, origin_name_lower item = Return s) good ->
  origin_name_lower bad = Raise e ->
  filter_loop (good ++ bad :: rest) filtered = Raise e.
Proof.
  induction good as [|item good IH]; intros bad rest filtered e Hgood Hbad.
  - cbn [app filter_loop]. rewrite Hbad. reflexivity.
  - inversion Hgood as [|? ? [s Hs] Hrest]; subst.
    cbn [app filter_loop]. rewrite Hs.
    destruct (contains "earth" s); [destruct (model_validate item)|];
      apply IH; assumption.
Qed.


(** A link that parses to a greater page number is handed on. *)
Lemma extract_next_page_advances data page n :
  parsed_next_page data = Some n -> page < n ->
  _extract_next_page_number data page = Return (Some n).
Proof.
  unfold _extract_next_page_number, parsed_next_page.
  destruct (dict_get data "info" (JObj [])) as [info|e]; [|discriminate].
  destruct (dict_get info "next" JNull) as [next_link|e]; [|discriminate].
  destruct next_link as [| | |link| |]; try discriminate.
  cbn [truthy]. destruct (String.eqb link EmptyString); [discriminate|].
  cbn [negb].
  destruct (query_page link) as [[s|]|e]; try discriminate.
  intros -> Hlt. destruct (Z.leb_spec n page) as [Hle|Hgt]; [lia|reflexivity].
Qed.

(** One turn of the loop on a page that is processed: what the filter keeps
    of its items, in their order, goes behind what was accumulated. *)
Lemma crawl_page_advances page acc w items next w' :
  advances up page w items next w' ->
  crawl_page up page acc w = (Return (Next next), acc ++ omap kept items, w').
Proof.
  intros (data & w1 & Hget & Hres & Hne & Hread & Hnext & Hlt & Hnz & ->).
  unfold crawl_page. rewrite Hget, Hres.
  destruct items as [|item items]; [contradiction|].
  cbn [truthy negb]. unfold _filter_earth_characters. cbn [py_iter].
  rewrite (filter_loop_kept _ [] Hread). cbn [app].
  rewrite (extract_next_page_advances _ _ _ Hnext Hlt).
  destruct (Z.eqb_spec next 0) as [H0|_]; [contradiction|reflexivity].
Qed.

(** The loop over the pages that are processed. *)
Lemma crawl_loop_processed pages : forall fuel page acc w page' w',
  processed up pages page w page' w' ->
  crawl_loop up (length pages + fuel) page acc w
  = crawl_loop up fuel page' (acc ++ flat_map (omap kept) pages) w'.
Proof.
  induction pages as [|items pages IH]; intros fuel page acc w page' w' Hp.
  - destruct Hp as [-> ->]. cbn [length flat_map Nat.add]. rewrite app_nil_r. reflexivity.
  - destruct Hp as (next & w1 & Hadv & Hrest).
    cbn [length Nat.add crawl_loop]. rewrite (crawl_page_advances _ acc _ _ _ _ Hadv).
    rewrite (IH fuel next _ w1 page' w' Hrest). cbn [flat_map].
    rewrite app_assoc. reflexivity.
Qed.

End CrawlFacts.

(** C4.  A page is fetched and its next-page link is absent, cannot be
    parsed, or parses to a page number that is not greater than the current
    one: the crawl ends on that turn, with one unit of fuel, and returns a
    list that starts with what it had accumulated; when the page holds
    items, that list is what it had accumulated followed by what the filter
    kept of this page. *)
Theorem crawl_stops_when_next_link_does_not_advance
    {lib : PyLib} (up : upstream) (fuel : nat) (page : Z)
    (all_characters : list CharacterResponse.t) (w w1 : world) (data : json) :
  get_characters up page None (Some "Alive"%string) (Some "Human"%string) None w
    = (Return data, w1) ->
  (forall n, parsed_next_page data = Some n -> n <= page) ->
  (exists more,
      crawl_loop up (S fuel) page all_characters w
      = Some (Return (all_characters ++ more), w1))
  /\ (forall characters earth_characters,
        dict_get data "results" (JArr []) = Return characters ->
        truthy characters = true ->
        _filter_earth_characters characters = Return earth_characters ->
        crawl_loop up (S fuel) page all_characters w
        = Some (Return (all_characters ++ earth_characters), w1)).
Proof.
  intros Hget Hnext.
  assert (Hstop : forall n, _extract_next_page_number data page = Return (Some n) -> n = 0).
  { intros n Hextract.
    destruct (extract_next_page_some _ _ _ Hextract) as [[Hparsed Hlt]|H0];
      [|assumption].
    specialize (Hnext n Hparsed). lia. }
  split.
  - cbn [crawl_loop]. unfold crawl_page. rewrite Hget.
    destruct (dict_get data "results" (JArr [])) as [characters|e].
    2:{ exists []. rewrite app_nil_r. destruct e; reflexivity. }
    destruct (truthy characters); cbn [negb].
    2:{ exists []. rewrite app_nil_r. reflexivity. }
    destruct (_filter_earth_characters characters) as [earth|e].
    2:{ exists []. rewrite app_nil_r. destruct e; reflexivity. }
    exists earth.
    destruct (_extract_next_page_number data page) as [[n|]|e] eqn:Hextract.
    + rewrite (Hstop n eq_refl). reflexivity.
    + reflexivity.
    + destruct e; reflexivity.
  - intros characters earth Hres Htruthy Hfilter.
    cbn [crawl_loop]. unfold crawl_page.
    rewrite Hget, Hres, Htruthy, Hfilter. cbn [negb].
    destruct (_extract_next_page_number data page) as [[n|]|e] eqn:Hextract.
    + rewrite (Hstop n eq_refl). reflexivity.
    + reflexivity.
    + destruct e; reflexivity.
Qed.

(** A single page whose link points back to page 1. *)
Lemma crawl_stops_when_next_link_does_not_advance_witness :
  let page1 := page_json [rick; martian]
                 (JStr "https://rickandmortyapi.com/api/character?page=1") in
  exists w1,
    get_all_filtered_characters (lib := Reference.lib) (serving [page1; page1; page1]) 3 boot
      = Some (Return (omap Reference.model_validate [rick]), w1)
    /\ sent w1 = 1%nat.
Proof.
  intros page1.
  destruct (crawl_stops_when_next_link_does_not_advance
              (lib := Reference.lib) (serving [page1; page1; page1]) 2 1 [] boot
              (snd (get_characters (serving [page1; page1; page1]) 1 None
                      (Some "Alive"%string) (Some "Human"%string) None boot))
              page1) as [_ H].
  - vm_compute. reflexivity.
  - intros n Hn. vm_compute in Hn. inversion Hn. lia.
  - pose proof (H (JArr [rick; martian])
                  (omap (M := list) Reference.model_validate [rick])
                  eq_refl eq_refl eq_refl) as H'.
    eexists. split; [exact H'|vm_compute; reflexivity].
Defined.

(** C5.  The crawl hands back a list, never an exception.  When it has
    processed the pages [pages], one after the other, and the fetch of the
    page that follows raises (the call failed, or the breaker refused it),
    the crawl ends there and returns what it started with followed by what
    the filter keeps of the items of each processed page, page after page
    and, within a page, in the order the upstream listed them: from an empty
    list, exactly the filtered items of the pages processed before the
    failure. *)
Theorem crawl_never_raises_and_keeps_accumulated
    {lib : PyLib} (up : upstream) (fuel : nat) (page : Z)
    (all_characters : list CharacterResponse.t) (w : world) :
  (forall e w', crawl_loop up fuel page all_characters w <> Some (Raise e, w'))
  /\ (forall pages page' w' e w1,
        processed up pages page w page' w' ->
        get_characters up page' None (Some "Alive"%string) (Some "Human"%string) None w'
          = (Raise e, w1) ->
        (length pages < fuel)%nat ->
        crawl_loop up fuel page all_characters w
        = Some (Return (all_characters ++ flat_map (omap kept) pages), w1)).
Proof.
  split.
  - intros e w' H. destruct (crawl_loop_extends up _ _ _ _ _ _ H) as [more Hmore].
    discriminate.
  - intros pages page' w' e w1 Hpages Hget Hfuel.
    replace fuel with (length pages + S (fuel - S (length pages)))%nat by lia.
    rewrite (crawl_loop_processed up pages _ page _ w page' w' Hpages).
    cbn [crawl_loop]. unfold crawl_page. rewrite Hget.
    destruct e; reflexivity.
Qed.

(** Two pages are processed, then the upstream answers 404: the crawl
    returns Rick and Summer, of page 1, then Beth, of page 2. *)
Lemma crawl_never_raises_and_keeps_accumulated_witness :
  let page1 := page_json [rick; martian; nameless_json; summer]
                 (JStr "https://rickandmortyapi.com/api/character?page=2") in
  let page2 := page_json [morty; character_json 5 "Beth" "EARTH (C-500A)"]
                 (JStr "https://rickandmortyapi.com/api/character?page=3") in
  exists w,
    get_all_filtered_characters (lib := Reference.lib) (serving [page1; page2]) 5 boot
    = Some (Return (omap Reference.model_validate
                      [rick; summer; character_json 5 "Beth" "EARTH (C-500A)"]), w)
    /\ sent w = 3%nat.
Proof.
  intros page1 page2.
  pose (up := serving [page1; page2]).
  pose (fetch := fun page w =>
          snd (get_characters up page None (Some "Alive"%string) (Some "Human"%string)
                 None w)).
  pose (w1 := sleep 100 (fetch 1 boot)).
  pose (w2 := sleep 100 (fetch 2 w1)).
  destruct (crawl_never_raises_and_keeps_accumulated
              (lib := Reference.lib) up 5 1 [] boot) as [_ H].
  exists (fetch 3 w2). split; [|vm_compute; reflexivity].
  apply (H [[rick; martian; nameless_json; summer];
            [morty; character_json 5 "Beth" "EARTH (C-500A)"]] 3 w2
           (RickMortyAPIError (HTTPStatusError 404))).
  - exists 2, w1. split.
    + exists page1, (fetch 1 boot).
      split; [vm_compute; reflexivity|]. split; [reflexivity|].
      split; [discriminate|].
      split; [repeat constructor; eexists; vm_compute; reflexivity|].
      split; [vm_compute; reflexivity|]. split; [lia|]. split; [lia|reflexivity].
    + exists 3, w2. split.
      * exists page2, (fetch 2 w1).
        split; [vm_compute; reflexivity|]. split; [reflexivity|].
        split; [discriminate|].
        split; [repeat constructor; eexists; vm_compute; reflexivity|].
        split; [vm_compute; reflexivity|]. split; [lia|]. split; [lia|reflexivity].
      * split; reflexivity.
  - vm_compute. reflexivity.
  - cbn [length]. lia.
Defined.

(** Two pages, then the upstream fails: what was found is returned in the
    order the upstream served it, across pages. *)
Example crawl_two_pages_then_failure :
  let page1 := page_json [rick; martian; nameless_json]
                 (JStr "https://rickandmortyapi.com/api/character?page=2") in
  let page2 := page_json [morty; summer]
                 (JStr "https://rickandmortyapi.com/api/character?page=3") in
  fst <$> get_all_filtered_characters (lib := Reference.lib) (serving [page1; page2]) 10 boot
    = Some (Return (omap Reference.model_validate [rick; summer])).
Proof. vm_compute. reflexivity. Qed.




(** ** C6, C7 and C9: the sync *)

Section SyncFacts.
Context {lib : PyLib}.

(** With one row per id, a lookup by id finds no row or one. *)
Lemma select_by_id_unique table id :
  NoDup (map Character.id table) ->
  select_by_id table id = []
  \/ exists c, select_by_id table id = [c] /\ c ∈ table /\ Character.id c = id.
Proof.
  induction table as [|c table IH]; intros Hnd; [left; reflexivity|].
  cbn [map] in Hnd. apply NoDup_cons in Hnd as [Hnotin Hnd].
  unfold select_by_id. cbn [List.filter]. fold (select_by_id table id).
  destruct (Z.eqb_spec (Character.id c) id) as [Heq|Hne].
  - right. exists c.
    destruct (IH Hnd) as [Hnone|(c' & _ & Hin & Hid)].
    + rewrite Hnone. split; [reflexivity|]. split; [left|assumption].
    + exfalso. apply Hnotin. rewrite Heq, <- Hid.
      apply list_elem_of_fmap. exists c'. auto.
  - destruct (IH Hnd) as [Hnone|(c' & Hsel & Hin & Hid)].
    + left. assumption.
    + right. exists c'. split; [assumption|]. split; [right; assumption|assumption].
Qed.

Lemma select_by_id_none table id :
  select_by_id table id = [] -> id ∉ map Character.id table.
Proof.
  induction table as [|c table IH]; intros Hsel Hin.
  - inversion Hin.
  - unfold select_by_id in Hsel. cbn [List.filter] in Hsel.
    fold (select_by_id table id) in Hsel.
    destruct (Z.eqb_spec (Character.id c) id) as [Heq|Hne]; [discriminate|].
    cbn [map] in Hin. apply elem_of_cons in Hin as [Hin|Hin]; [congruence|].
    exact (IH Hsel Hin).
Qed.

Lemma select_by_id_app t1 t2 id :
  select_by_id (t1 ++ t2) id = select_by_id t1 id ++ select_by_id t2 id.
Proof. unfold select_by_id. apply List.filter_app. Qed.

Lemma update_row_ids table api_char now :
  map Character.id (update_row table api_char now) = map Character.id table.
Proof.
  unfold update_row. induction table as [|c table IH]; [reflexivity|].
  cbn [map]. rewrite IH. f_equal.
  destruct (Character.id c =? CharacterResponse.id api_char); reflexivity.
Qed.

Lemma update_row_length table api_char now :
  length (update_row table api_char now) = length table.
Proof. unfold update_row. apply length_map. Qed.

Lemma select_update_row_same table api_char now :
  select_by_id (update_row table api_char now) (CharacterResponse.id api_char)
  = map (fun c => updated c api_char now)
        (select_by_id table (CharacterResponse.id api_char)).
Proof.
  unfold select_by_id, update_row.
  induction table as [|c table IH]; [reflexivity|].
  cbn [map List.filter].
  destruct (Z.eqb_spec (Character.id c) (CharacterResponse.id api_char)) as [Heq|Hne].
  - cbn [updated Character.id]. rewrite Heq, Z.eqb_refl. cbn [map]. rewrite IH. reflexivity.
  - destruct (Z.eqb_spec (Character.id c) (CharacterResponse.id api_char)); [contradiction|].
    assumption.
Qed.

Lemma select_update_row_other table api_char now id :
  id <> CharacterResponse.id api_char ->
  select_by_id (update_row table api_char now) id = select_by_id table id.
Proof.
  intros Hne. unfold select_by_id, update_row.
  induction table as [|c table IH]; [reflexivity|].
  cbn [map List.filter].
  destruct (Z.eqb_spec (Character.id c) (CharacterResponse.id api_char)) as [Heq|Hne'].
  - cbn [updated Character.id].
    destruct (Z.eqb_spec (Character.id c) id) as [Heq'|_]; [congruence|]. assumption.
  - rewrite IH. reflexivity.
Qed.

(** One record of the loop, when its lookup does not fail. *)
Lemma sync_loop_step (f : faults) now i api_char rest table n :
  NoDup (map Character.id table) ->
  execute_fault f i = None ->
  sync_loop f now i (api_char :: rest) table n
  = sync_loop f now (S i) rest
      (match select_by_id table (CharacterResponse.id api_char) with
       | [] => table ++ [new_char api_char now]
       | _ => update_row table api_char now
       end) (n + 1).
Proof.
  intros Hnd Hf. cbn [sync_loop]. rewrite Hf.
  destruct (select_by_id_unique table (CharacterResponse.id api_char) Hnd)
    as [Hnone|(c & Hsel & _)].
  - rewrite Hnone. reflexivity.
  - rewrite Hsel. reflexivity.
Qed.

Lemma upsert_nodup table api_char now :
  NoDup (map Character.id table) ->
  NoDup (map Character.id
           (match select_by_id table (CharacterResponse.id api_char) with
            | [] => table ++ [new_char api_char now]
            | _ => update_row table api_char now
            end)).
Proof.
  intros Hnd.
  destruct (select_by_id table (CharacterResponse.id api_char)) eqn:Hsel.
  - rewrite map_app. cbn [map new_char Character.id].
    apply NoDup_app. split; [assumption|]. split.
    + intros x Hx Hx'. apply list_elem_of_singleton in Hx'. subst x.
      exact (select_by_id_none _ _ Hsel Hx).
    + apply NoDup_singleton.
  - rewrite update_row_ids. assumption.
Qed.

(** Without faults every record is counted and ids stay unique. *)
Lemma sync_loop_counts (f : faults) now api_characters : forall i table n,
  NoDup (map Character.id table) ->
  (forall k, execute_fault f k = None) ->
  NoDup (map Character.id (fst (sync_loop f now i api_characters table n)))
  /\ snd (sync_loop f now i api_characters table n)
     = n + Z.of_nat (length api_characters).
Proof.
  induction api_characters as [|api_char rest IH]; intros i table n Hnd Hf.
  - cbn [sync_loop fst snd length]. split; [assumption|lia].
  - rewrite sync_loop_step by auto.
    destruct (IH (S i) _ (n + 1) (upsert_nodup table api_char now Hnd) Hf) as [H1 H2].
    split; [exact H1|]. rewrite H2. cbn [length]. lia.
Qed.

End SyncFacts.

Section SyncRestFacts.
Context {lib : PyLib}.

(** The table after one record: unchanged, updated in place, or extended. *)
Lemma sync_loop_cons (f : faults) now i api_char rest table n :
  exists table' n',
    sync_loop f now i (api_char :: rest) table n = sync_loop f now (S i) rest table' n'
    /\ (table' = table
        \/ table' = update_row table api_char now
        \/ table' = table ++ [new_char api_char now]).
Proof.
  cbn [sync_loop].
  destruct (execute_fault f i); [eauto 6|].
  destruct (scalar_one_or_none (select_by_id table (CharacterResponse.id api_char)))
    as [[existing|]|e]; eauto 7.
Qed.

Lemma sync_loop_frame (f : faults) now api_characters : forall i table n,
  (forall id, id ∉ map CharacterResponse.id api_characters ->
              select_by_id (fst (sync_loop f now i api_characters table n)) id
              = select_by_id table id)
  /\ (forall id, id ∈ map Character.id table ->
                 id ∈ map Character.id (fst (sync_loop f now i api_characters table n)))
  /\ (length table <= length (fst (sync_loop f now i api_characters table n)))%nat.
Proof.
  induction api_characters as [|api_char rest IH]; intros i table n.
  - cbn [sync_loop fst]. auto.
  - destruct (sync_loop_cons f now i api_char rest table n)
      as (table' & n' & -> & Hstep).
    destruct (IH (S i) table' n') as (Hsel & Hids & Hlen).
    assert (Hsel1 : forall id, id <> CharacterResponse.id api_char ->
                               select_by_id table' id = select_by_id table id).
    { intros id Hne. destruct Hstep as [->|[->| ->]].
      - reflexivity.
      - apply select_update_row_other. assumption.
      - rewrite select_by_id_app. unfold select_by_id at 2.
        cbn [List.filter new_char Character.id].
        destruct (Z.eqb_spec (CharacterResponse.id api_char) id); [congruence|].
        apply app_nil_r. }
    assert (Hids1 : forall id, id ∈ map Character.id table -> id ∈ map Character.id table').
    { intros id Hin. destruct Hstep as [->|[->| ->]].
      - assumption.
      - rewrite update_row_ids. assumption.
      - rewrite map_app. apply elem_of_app. left. assumption. }
    assert (Hlen1 : (length table <= length table')%nat).
    { destruct Hstep as [->|[->| ->]].
      - lia.
      - rewrite update_row_length. lia.
      - rewrite length_app. cbn [length]. lia. }
    split; [|split].
    + intros id Hnotin. cbn [map] in Hnotin. apply not_elem_of_cons in Hnotin as [Hne Hrest].
      rewrite (Hsel id Hrest). apply Hsel1. assumption.
    + intros id Hin. apply Hids, Hids1, Hin.
    + lia.
Qed.

Lemma sync_loop_survivors (f : faults) now api_characters : forall i j table n,
  sync_loop f now i api_characters table n
  = sync_loop no_faults now j (survivors f i api_characters) table n.
Proof.
  induction api_characters as [|api_char rest IH]; intros i j table n; [reflexivity|].
  cbn [sync_loop survivors].
  destruct (execute_fault f i); [apply IH|].
  cbn [sync_loop no_faults execute_fault].
  destruct (scalar_one_or_none (select_by_id table (CharacterResponse.id api_char)))
    as [[existing|]|e]; apply IH.
Qed.

Lemma sync_loop_rows (f : faults) now api_characters : forall i table n api_char,
  NoDup (map Character.id table) ->
  (forall k, execute_fault f k = None) ->
  NoDup (map CharacterResponse.id api_characters) ->
  api_char ∈ api_characters ->
  select_by_id (fst (sync_loop f now i api_characters table n))
               (CharacterResponse.id api_char)
  = [match select_by_id table (CharacterResponse.id api_char) with
     | existing :: _ => updated existing api_char now
     | [] => new_char api_char now
     end].
Proof.
  induction api_characters as [|head rest IH]; intros i table n api_char Hnd Hf Hapis Hin.
  - inversion Hin.
  - cbn [map] in Hapis. apply NoDup_cons in Hapis as [Hhead Hrest].
    rewrite sync_loop_step by auto.
    pose proof (upsert_nodup table head now Hnd) as Hnd1.
    set (table1 := match select_by_id table (CharacterResponse.id head) with
                   | [] => table ++ [new_char head now]
                   | _ => update_row table head now
                   end) in *.
    apply elem_of_cons in Hin as [->|Hin].
    + destruct (sync_loop_frame f now rest (S i) table1 (n + 1)) as (Hframe & _ & _).
      rewrite (Hframe _ Hhead). subst table1.
      destruct (select_by_id_unique table (CharacterResponse.id head) Hnd)
        as [Hnone|(c & Hsel & _)].
      * rewrite Hnone, select_by_id_app, Hnone.
        unfold select_by_id. cbn [List.filter new_char Character.id].
        rewrite Z.eqb_refl. reflexivity.
      * rewrite Hsel, select_update_row_same, Hsel. reflexivity.
    + assert (Hne : CharacterResponse.id api_char <> CharacterResponse.id head).
      { intros Heq. apply Hhead. rewrite <- Heq. apply list_elem_of_fmap. eauto. }
      rewrite (IH (S i) table1 (n + 1) api_char Hnd1 Hf Hrest Hin).
      assert (Hsame : select_by_id table1 (CharacterResponse.id api_char)
                      = select_by_id table (CharacterResponse.id api_char)).
      { subst table1.
        destruct (select_by_id table (CharacterResponse.id head)).
        - rewrite select_by_id_app. unfold select_by_id at 2.
          cbn [List.filter new_char Character.id].
          destruct (Z.eqb_spec (CharacterResponse.id head) (CharacterResponse.id api_char));
            [congruence|]. apply app_nil_r.
        - apply select_update_row_other. assumption. }
      rewrite Hsame. reflexivity.
Qed.

End SyncRestFacts.



Example rick_validates : Reference.model_validate rick = Some rick_response.
Proof. reflexivity. Qed.

Example first_sync_writes_rick_row :
  (fun out => committed (snd (fst out)))
    <$> sync_characters_from_api (lib := Reference.lib)
          (serving [page_json [rick] JNull]) 5 no_faults boot empty_db offline
  = Some [rick_row].
Proof. vm_compute. reflexivity. Qed.

(** C6.  One record of the sync, when its lookup does not fail and the table
    has one row per id: if a row with the record's id exists it is replaced,
    where it stands, by the row that carries the twelve upstream fields of
    the record, with [updated_at] set to the time of the sync and its id and
    [created_at] kept, and the table keeps its length; if none exists a new
    row with that id and those fields is appended.  Either way the ids stay unique, the rows with other ids
    are as before, and the count goes up by one.  A whole sync without
    storage faults returns the number of records crawled and commits the
    table the loop leaves, which the session then sees: it has one row per
    id; the rows of the ids that were not crawled are as before and no row
    is removed; and, the crawled ids being distinct, every crawled record
    has exactly one row, the row it had with the upstream fields overwritten
    and [updated_at] set to the time of the sync, or a new row when it had
    none. *)
Theorem sync_inserts_or_updates_by_id {lib : PyLib} :
  (forall (f : faults) (now : Z) (i : nat) (api_char : CharacterResponse.t)
          (rest : list CharacterResponse.t) (table : list Character.t) (n : Z),
      NoDup (map Character.id table) ->
      execute_fault f i = None ->
      exists table',
        sync_loop f now i (api_char :: rest) table n
          = sync_loop f now (S i) rest table' (n + 1)
        /\ NoDup (map Character.id table')
        /\ (forall id, id <> CharacterResponse.id api_char ->
                       select_by_id table' id = select_by_id table id)
        /\ ((exists existing,
                select_by_id table (CharacterResponse.id api_char) = [existing]
                /\ select_by_id table' (CharacterResponse.id api_char)
                   = [updated existing api_char now]
                /\ Character.id (updated existing api_char now) = Character.id existing
                /\ carries (updated existing api_char now) api_char
                /\ Character.created_at (updated existing api_char now)
                   = Character.created_at existing
                /\ Character.updated_at (updated existing api_char now) = now
                /\ length table' = length table)
            \/ (select_by_id table (CharacterResponse.id api_char) = []
                /\ table' = table ++ [new_char api_char now]
                /\ select_by_id table' (CharacterResponse.id api_char)
                   = [new_char api_char now]
                /\ Character.id (new_char api_char now) = CharacterResponse.id api_char
                /\ carries (new_char api_char now) api_char)))
  /\ (forall (up : upstream) (fuel : nat) (f : faults) (w w1 : world) (db : session)
             (cache : CacheManager) (api_characters : list CharacterResponse.t),
        get_all_filtered_characters up fuel w = Some (Return api_characters, w1) ->
        api_characters <> [] ->
        (forall k, execute_fault f k = None) ->
        commit_fault f = None ->
        NoDup (map Character.id (rows db)) ->
        exists table cache',
          sync_characters_from_api up fuel f w db cache
            = Some (Return (Z.of_nat (length api_characters)), w1,
                    {| committed := table; rows := table |}, cache')
          /\ table = fst (sync_loop f (clock w1) 0 api_characters (rows db) 0)
          /\ NoDup (map Character.id table)
          /\ (forall id, id ∉ map CharacterResponse.id api_characters ->
                         select_by_id table id = select_by_id (rows db) id)
          /\ (forall id, id ∈ map Character.id (rows db) ->
                         id ∈ map Character.id table)
          /\ (NoDup (map CharacterResponse.id api_characters) ->
              forall api_char,
                api_char ∈ api_characters ->
                exists row,
                  select_by_id table (CharacterResponse.id api_char) = [row]
                  /\ row = match select_by_id (rows db) (CharacterResponse.id api_char) with
                           | existing :: _ => updated existing api_char (clock w1)
                           | [] => new_char api_char (clock w1)
                           end
                  /\ Character.id row = CharacterResponse.id api_char
                  /\ carries row api_char
                  /\ Character.updated_at row = clock w1)).
Proof.
  split.
  - intros f now i api_char rest table n Hnd Hf.
    eexists. split; [apply sync_loop_step; assumption|].
    split; [apply upsert_nodup; assumption|].
    destruct (select_by_id_unique table (CharacterResponse.id api_char) Hnd)
      as [Hnone|(c & Hsel & _ & Hid)].
    + rewrite Hnone. split.
      * intros id Hne. rewrite select_by_id_app.
        unfold select_by_id at 2. cbn [List.filter new_char Character.id].
        destruct (Z.eqb_spec (CharacterResponse.id api_char) id); [congruence|].
        apply app_nil_r.
      * right. split; [reflexivity|]. split; [reflexivity|].
        split; [|split; [reflexivity|repeat split]].
        rewrite select_by_id_app, Hnone.
        unfold select_by_id. cbn [List.filter new_char Character.id].
        rewrite Z.eqb_refl. reflexivity.
    + rewrite Hsel. split.
      * intros id Hne. apply select_update_row_other. assumption.
      * left. exists c. split; [reflexivity|].
        split; [rewrite select_update_row_same, Hsel; reflexivity|].
        split; [reflexivity|]. split; [repeat split|].
        split; [reflexivity|]. split; [reflexivity|]. apply update_row_length.
  - intros up fuel f w w1 db cache api_characters Hcrawl Hne Hf Hc Hnd.
    unfold sync_characters_from_api. rewrite Hcrawl.
    destruct api_characters as [|api_char rest]; [contradiction|].
    pose proof (sync_loop_counts f (clock w1) (api_char :: rest) O (rows db) 0 Hnd Hf)
      as [Hnd' Hcount].
    pose proof (sync_loop_frame f (clock w1) (api_char :: rest) O (rows db) 0)
      as (Hframe & Hids & _).
    pose proof (sync_loop_rows f (clock w1) (api_char :: rest) O (rows db) 0) as Hrows.
    destruct (sync_loop f (clock w1) 0 (api_char :: rest) (rows db) 0)
      as [table synced_count].
    cbn [fst snd] in Hnd', Hcount, Hframe, Hids, Hrows. rewrite Hc.
    destruct (Cache.clear_pattern cache (clock w1) "characters:*") as [cleared cache'].
    exists table, cache'. split; [rewrite Hcount; reflexivity|].
    split; [reflexivity|]. split; [assumption|]. split; [assumption|].
    split; [assumption|].
    intros Hapis a Hin. eexists. split; [apply Hrows; assumption|].
    split; [reflexivity|].
    destruct (select_by_id_unique (rows db) (CharacterResponse.id a) Hnd)
      as [Hnone|(c & Hsel & _ & Hid)].
    + rewrite Hnone. split; [reflexivity|]. split; [repeat split|reflexivity].
    + rewrite Hsel. split; [exact Hid|]. split; [repeat split|reflexivity].
Qed.

(** Rick is renamed upstream and synced into the table that holds him: the
    count is 1 and the committed table has one row for id 1, with the new
    name, its [created_at] kept and [updated_at] set to the time of the
    sync. *)
Lemma sync_inserts_or_updates_by_id_witness :
  exists w1 table cache',
    sync_characters_from_api (lib := Reference.lib)
      (serving [page_json [rick_updated] JNull]) 5 no_faults (sleep 5000 boot)
      rick_db offline
      = Some (Return 1, w1, {| committed := table; rows := table |}, cache')
    /\ map (fun c => (Character.name c, Character.created_at c, Character.updated_at c))
           (select_by_id table 1)
       = [("Rick Sanchez Updated"%string, 20, 5020)].
Proof.
  pose (up := serving [page_json [rick_updated] JNull]).
  pose (w1 := match get_all_filtered_characters (lib := Reference.lib) up 5
                      (sleep 5000 boot) with
              | Some (_, w) => w
              | None => boot
              end).
  destruct (proj2 (sync_inserts_or_updates_by_id (lib := Reference.lib))
              up 5%nat no_faults (sleep 5000 boot) w1 rick_db offline
              (omap Reference.model_validate [rick_updated]))
    as (table & cache' & Heq & _ & _ & _ & _ & Hrows).
  - vm_compute. reflexivity.
  - vm_compute. discriminate.
  - reflexivity.
  - reflexivity.
  - apply (bool_decide_unpack _). vm_compute. reflexivity.
  - destruct (Hrows (NoDup_singleton _)
                (default rick_response (Reference.model_validate rick_updated)))
      as (row & Hsel & Hrow & _).
    + left.
    + exists w1, table, cache'. split; [exact Heq|].
      change (CharacterResponse.id
                (default rick_response (Reference.model_validate rick_updated)))
        with 1 in Hsel.
      rewrite Hsel, Hrow. vm_compute. reflexivity.
Defined.

(** The two runs of the specification: Rick is new, then Rick is renamed. *)
Example sync_one_new_record :
  (fun out => (fst (fst (fst out)), map Character.name (committed (snd (fst out)))))
    <$> sync_characters_from_api (lib := Reference.lib)
          (serving [page_json [rick] JNull]) 5 no_faults boot empty_db offline
  = Some (Return 1, ["Rick Sanchez"%string]).
Proof. vm_compute. reflexivity. Qed.

Example sync_same_id_new_name :
  (fun out => (fst (fst (fst out)),
               map (fun c => (Character.id c, Character.name c,
                              Character.created_at c, Character.updated_at c))
                   (committed (snd (fst out)))))
    <$> sync_characters_from_api (lib := Reference.lib)
          (serving [page_json [rick_updated] JNull]) 5 no_faults
          (sleep 5000 boot) rick_db offline
  = Some (Return 1, [(1, "Rick Sanchez Updated"%string, 20, 5020)]).
Proof. vm_compute. reflexivity. Qed.

(** C7.  When the commit of a sync fails, the exception it raised leaves
    [sync_characters_from_api]; the committed table is the one from before
    the sync, the session sees that table again, and the cache is as it
    was. *)
Theorem failed_commit_rolls_back_and_raises
    {lib : PyLib} (up : upstream) (fuel : nat) (f : faults) (w w1 : world)
    (db : session) (cache : CacheManager)
    (api_characters : list CharacterResponse.t) (e : exn) :
  get_all_filtered_characters up fuel w = Some (Return api_characters, w1) ->
  api_characters <> [] ->
  commit_fault f = Some e ->
  exists db',
    sync_characters_from_api up fuel f w db cache = Some (Raise e, w1, db', cache)
    /\ committed db' = committed db
    /\ rows db' = committed db.
Proof.
  intros Hcrawl Hne Hc. unfold sync_characters_from_api. rewrite Hcrawl.
  destruct api_characters as [|api_char rest]; [contradiction|].
  destruct (sync_loop f (clock w1) 0 (api_char :: rest) (rows db) 0)
    as [table synced_count].
  rewrite Hc. exists (rollback db). repeat split.
Qed.

(** Rick is renamed upstream, the commit fails: the table still has Rick. *)
Lemma failed_commit_rolls_back_and_raises_witness :
  exists w1 db',
    sync_characters_from_api (lib := Reference.lib)
      (serving [page_json [rick_updated] JNull]) 5 commit_fails boot rick_db offline
      = Some (Raise DatabaseError, w1, db', offline)
    /\ committed db' = committed rick_db
    /\ rows db' = committed rick_db.
Proof.
  destruct (failed_commit_rolls_back_and_raises (lib := Reference.lib)
              (serving [page_json [rick_updated] JNull]) 5%nat commit_fails boot
              (sleep 20 (set_breaker (CB.new 0) {| clock := 0; sent := 1; breaker := CB.new 0 |}))
              rick_db offline (omap Reference.model_validate [rick_updated])
              DatabaseError)
    as (db' & Heq & Hc & Hr).
  - vm_compute. reflexivity.
  - vm_compute. discriminate.
  - reflexivity.
  - eexists; eexists. split; [exact Heq|]. split; assumption.
Defined.

(** C9.  When the crawl returns no record, the sync returns 0 and leaves the
    session (committed table and open transaction) and the cache as they
    were. *)
Theorem empty_crawl_syncs_nothing
    {lib : PyLib} (up : upstream) (fuel : nat) (f : faults) (w w1 : world)
    (db : session) (cache : CacheManager) :
  get_all_filtered_characters up fuel w = Some (Return [], w1) ->
  sync_characters_from_api up fuel f w db cache = Some (Return 0, w1, db, cache).
Proof.
  intros Hcrawl. unfold sync_characters_from_api. rewrite Hcrawl. reflexivity.
Qed.

(** The upstream is down: nothing is crawled, nothing is written. *)
Lemma empty_crawl_syncs_nothing_witness :
  exists w1,
    sync_characters_from_api (lib := Reference.lib) down 5 commit_fails boot rick_db offline
    = Some (Return 0, w1, rick_db, offline).
Proof.
  eexists.
  apply (empty_crawl_syncs_nothing (lib := Reference.lib) down 5 commit_fails boot).
  vm_compute. reflexivity.
Defined.

(** ** C10: what the sync clears from the cache *)

Section CacheFacts.

Lemma usable_inv cache store :
  Cache.usable cache = Some store ->
  _connected cache = true /\ redis_client cache = Some store /\ reachable cache = true.
Proof.
  unfold Cache.usable. destruct (_connected cache); cbn [negb]; [|discriminate].
  destruct (redis_client cache) as [s|]; [|discriminate].
  destruct (reachable cache); [|discriminate].
  intros H; inversion H; subst. auto.
Qed.

Lemma usable_with_store cache store store' :
  Cache.usable cache = Some store ->
  Cache.usable (Cache.with_store cache store') = Some store'.
Proof.
  intros H. apply usable_inv in H as (Hc & _ & Hr).
  unfold Cache.usable, Cache.with_store. cbn. rewrite Hc, Hr. reflexivity.
Qed.

(** [clear_pattern] leaves the keys that do not match as they were. *)
Lemma clear_pattern_keeps cache now pattern t key :
  glob_match (cache_prefix +:+ pattern) (cache_prefix +:+ key) = false ->
  Cache.get (snd (Cache.clear_pattern cache now pattern)) t key = Cache.get cache t key.
Proof.
  intros Hglob. unfold Cache.clear_pattern.
  destruct (Cache.usable cache) as [store|] eqn:Hu; [|reflexivity].
  cbn [snd]. unfold Cache.get. rewrite (usable_with_store _ _ _ Hu), Hu.
  destruct (store !! (cache_prefix +:+ key)) as [entry|] eqn:Hlook.
  - rewrite (map_lookup_filter_Some_2 _ _ _ entry Hlook); [reflexivity|].
    cbn [fst]. assumption.
  - rewrite map_lookup_filter_None_2; [reflexivity|]. left. assumption.
Qed.

(** [clear_pattern] on a usable cache removes the keys that match. *)
Lemma clear_pattern_deletes cache store now pattern t key :
  Cache.usable cache = Some store ->
  glob_match (cache_prefix +:+ pattern) (cache_prefix +:+ key) = true ->
  Cache.get (snd (Cache.clear_pattern cache now pattern)) t key = None.
Proof.
  intros Hu Hglob. unfold Cache.clear_pattern. rewrite Hu. cbn [snd].
  unfold Cache.get. rewrite (usable_with_store _ _ _ Hu).
  rewrite map_lookup_filter_None_2; [reflexivity|].
  right. intros entry _. cbn [fst]. rewrite Hglob. discriminate.
Qed.

(** A key [character:{id}] is not in the listing namespace. *)
Lemma character_key_not_listing character_id :
  glob_match (cache_prefix +:+ "characters:*") (cache_prefix +:+ character_key character_id)
  = false.
Proof.
  unfold character_key. generalize (pretty character_id). intros s. reflexivity.
Qed.

(** A key [characters:...] is. *)
Lemma listing_key_matches suffix :
  glob_match (cache_prefix +:+ "characters:*") (cache_prefix +:+ ("characters:" +:+ suffix))
  = true.
Proof.
  assert (Hstar : forall key,
             (fix star (key : string) : bool :=
                glob_match EmptyString key
                || match key with
                   | EmptyString => false
                   | String _ key' => star key'
                   end) key = true).
  { induction key as [|c key IH]; [reflexivity|]. rewrite IH. apply orb_true_r. }
  exact (Hstar suffix).
Qed.

End CacheFacts.

Section SyncCacheFacts.
Context {lib : PyLib} (up : upstream).

Lemma sync_cache fuel f w db cache r w1 db' cache' :
  sync_characters_from_api up fuel f w db cache = Some (r, w1, db', cache') ->
  cache' = cache
  \/ cache' = snd (Cache.clear_pattern cache (clock w1) "characters:*").
Proof.
  unfold sync_characters_from_api.
  destruct (get_all_filtered_characters up fuel w) as [[[apis|e] w2]|]; [| |discriminate].
  - destruct apis as [|api_char rest].
    + intros H; inversion H; subst. left; reflexivity.
    + destruct (sync_loop f (clock w2) 0 (api_char :: rest) (rows db) 0)
        as [table synced_count].
      destruct (commit_fault f) as [e|].
      * intros H; inversion H; subst. left; reflexivity.
      * destruct (Cache.clear_pattern cache (clock w2) "characters:*")
          as [cleared cache2] eqn:Hclear.
        intros H; inversion H; subst. right. rewrite Hclear. reflexivity.
  - intros H; inversion H; subst. left; reflexivity.
Qed.

End SyncCacheFacts.

(** C10.  Whatever a sync does, it leaves every cache key outside the
    pattern [characters:*] as it was; the keys [character:{id}] are outside
    it; so an entry that [get_character_by_id] finds under [character:{id}]
    before the sync it finds after it, and returns it without looking at the
    table the sync has written.  Such an entry is what
    [get_character_by_id] stores on a miss, and it stays readable for
    3600 seconds. *)
Theorem sync_leaves_single_character_entries {lib : PyLib} :
  (forall (up : upstream) (fuel : nat) (f : faults) (w w1 : world)
          (db db' : session) (cache cache' : CacheManager) (r : result Z),
      sync_characters_from_api up fuel f w db cache = Some (r, w1, db', cache') ->
      (forall now key,
          glob_match (cache_prefix +:+ "characters:*") (cache_prefix +:+ key) = false ->
          Cache.get cache' now key = Cache.get cache now key)
      /\ (forall now character_id,
             Cache.get cache' now (character_key character_id)
             = Cache.get cache now (character_key character_id))
      /\ (forall now character_id c,
             Cache.get cache now (character_key character_id) = Some (CharacterDump c) ->
             get_character_by_id now db' cache' character_id = (Return (Some c), cache')))
  /\ (forall (now : Z) (db : session) (cache : CacheManager) (store : redis)
             (character_id : Z) (character : Character.t),
        Cache.usable cache = Some store ->
        Cache.get cache now (character_key character_id) = None ->
        select_by_id (rows db) character_id = [character] ->
        fst (get_character_by_id now db cache character_id)
          = Return (Some (to_response character))
        /\ forall t, t < now + 1000 * 3600 ->
             Cache.get (snd (get_character_by_id now db cache character_id)) t
                       (character_key character_id)
             = Some (CharacterDump (to_response character))).
Proof.
  split.
  - intros up fuel f w w1 db db' cache cache' r Hsync.
    assert (Hkeep : forall now key,
               glob_match (cache_prefix +:+ "characters:*") (cache_prefix +:+ key) = false ->
               Cache.get cache' now key = Cache.get cache now key).
    { intros now key Hglob.
      destruct (sync_cache up _ _ _ _ _ _ _ _ _ Hsync) as [->| ->]; [reflexivity|].
      apply clear_pattern_keeps. assumption. }
    assert (Hchar : forall now character_id,
               Cache.get cache' now (character_key character_id)
               = Cache.get cache now (character_key character_id)).
    { intros now character_id. apply Hkeep, character_key_not_listing. }
    split; [exact Hkeep|]. split; [exact Hchar|].
    intros now character_id c Hhit. unfold get_character_by_id.
    rewrite Hchar, Hhit. reflexivity.
  - intros now db cache store character_id character Hu Hmiss Hsel.
    unfold get_character_by_id. rewrite Hmiss, Hsel. cbn [scalar_one_or_none].
    unfold Cache.set. rewrite Hu. cbn [fst snd Z.eqb].
    split; [reflexivity|]. intros t Ht.
    unfold Cache.get. rewrite (usable_with_store _ _ _ Hu).
    rewrite lookup_insert_eq. unfold Cache.live. cbn [fst snd].
    destruct (Z.ltb_spec t (now + 1000 * 3600)) as [_|Hge]; [reflexivity|lia].
Qed.

(** Rick is read (and cached) at time 100, renamed by a sync, and read
    again at time 6000: the second read returns the record cached before
    the sync, not the row the sync has written. *)
Lemma sync_leaves_single_character_entries_witness :
  let first := get_character_by_id 100 rick_db online 1 in
  fst first = Return (Some (to_response rick_row))
  /\ exists w1 db' cache',
       sync_characters_from_api (lib := Reference.lib)
         (serving [page_json [rick_updated] JNull]) 5 no_faults boot rick_db (snd first)
         = Some (Return 1, w1, db', cache')
       /\ map Character.name (rows db') = ["Rick Sanchez Updated"%string]
       /\ get_character_by_id 6000 db' cache' 1
          = (Return (Some (to_response rick_row)), cache').
Proof.
  intros first.
  destruct (proj2 (sync_leaves_single_character_entries (lib := Reference.lib))
              100 rick_db online ∅ 1 rick_row eq_refl eq_refl eq_refl)
    as [Hfirst Hlive].
  fold first in Hfirst, Hlive.
  split; [exact Hfirst|].
  assert (Hout :
            (fun o => (fst (fst (fst o)), map Character.name (rows (snd (fst o)))))
              <$> sync_characters_from_api (lib := Reference.lib)
                    (serving [page_json [rick_updated] JNull]) 5 no_faults boot
                    rick_db (snd first)
            = Some (Return 1, ["Rick Sanchez Updated"%string])).
  { vm_compute. reflexivity. }
  destruct (sync_characters_from_api (lib := Reference.lib)
              (serving [page_json [rick_updated] JNull]) 5 no_faults boot
              rick_db (snd first))
    as [[[[r w1] db'] cache']|] eqn:Hsync; [|discriminate].
  simpl in Hout. injection Hout as Hr Hnames. subst r.
  destruct (proj1 (sync_leaves_single_character_entries (lib := Reference.lib))
              _ _ _ _ _ _ _ _ _ _ Hsync) as (_ & _ & Hstale).
  exists w1, db', cache'. split; [reflexivity|]. split; [assumption|].
  apply Hstale. apply Hlive. lia.
Defined.

(** ** The rest of the client *)

Section ClientRestFacts.
Context {lib : PyLib}.

(** A call depends on the upstream through the one reply it asks for. *)
Lemma make_request_ext (up1 up2 : upstream) req w :
  up1 (sent w) req = up2 (sent w) req ->
  _make_request up1 req w = _make_request up2 req w.
Proof.
  intros Hup.
  destruct (CB.opened (breaker w) (clock w)) eqn:Hopen.
  - rewrite !make_request_refused by assumption. reflexivity.
  - rewrite !make_request_admitted by assumption.
    unfold _make_request_body, try_request, client_get. rewrite Hup. reflexivity.
Qed.

Lemma make_request_success up req w status_code data :
  CB.opened (breaker w) (clock w) = false ->
  outcome (up (sent w) req) = HttpResponse status_code (Some data) ->
  is_success status_code = true ->
  fst (_make_request up req w) = Return data.
Proof.
  intros Hopen Ho Hs.
  destruct (successful_call up req w status_code data Hopen Ho Hs) as (w' & Heq & _).
  rewrite Heq. reflexivity.
Qed.

(** A call that returns got a 2xx reply with that JSON body. *)
Lemma make_request_return up req w data w1 :
  _make_request up req w = (Return data, w1) ->
  CB.opened (breaker w) (clock w) = false
  /\ exists status_code,
       outcome (up (sent w) req) = HttpResponse status_code (Some data)
       /\ is_success status_code = true.
Proof.
  intros Hcall.
  destruct (CB.opened (breaker w) (clock w)) eqn:Hopen.
  - rewrite make_request_refused in Hcall by assumption. discriminate.
  - split; [reflexivity|].
    rewrite make_request_admitted in Hcall by assumption.
    unfold _make_request_body, try_request, client_get in Hcall.
    destruct (outcome (up (sent w) req)) as [code [body|]|]; cbn in Hcall.
    + destruct (is_success code) eqn:Hs; cbn in Hcall.
      * inversion Hcall; subst. eauto.
      * destruct (code =? 429); discriminate.
    + destruct (is_success code); cbn in Hcall; [discriminate|].
      destruct (code =? 429); discriminate.
    + discriminate.
Qed.

End ClientRestFacts.

(** X1.  When the upstream answers a request for one character with a
    transport error, [get_character] returns [None]: no exception, one
    request sent. *)
Theorem get_character_none_on_transport_error
    {lib : PyLib} (up : upstream) (character_id : Z) (w : world) (e : exn) :
  CB.opened (breaker w) (clock w) = false ->
  transport_error
    (outcome (up (sent w)
                 {| endpoint := character_endpoint character_id; params := [] |}))
  = Some e ->
  fst (get_character up character_id w) = Return None
  /\ sent (snd (get_character up character_id w)) = S (sent w).
Proof.
  intros Hopen He. unfold get_character.
  pose proof (make_request_single_attempt up
                {| endpoint := character_endpoint character_id; params := [] |} w Hopen)
    as Hsent.
  rewrite make_request_admitted in * by assumption.
  pose proof (body_transport_error up _ _ _ He) as Hbody.
  destruct (_make_request_body up
              {| endpoint := character_endpoint character_id; params := [] |} w)
    as [r w1].
  cbn [fst] in Hbody. subst r. cbn [fst snd] in *. split; [reflexivity|assumption].
Qed.

Lemma get_character_none_on_transport_error_witness :
  get_character (lib := Reference.lib) down 1 boot
  = (Return None,
     {| clock := 5; sent := 1;
        breaker := {| _state := STATE_CLOSED; _failure_count := 1; _opened := 0 |} |}).
Proof.
  pose proof (get_character_none_on_transport_error (lib := Reference.lib)
                down 1 boot RequestError eq_refl eq_refl) as [Hr Hs].
  destruct (get_character (lib := Reference.lib) down 1 boot) as [r w1] eqn:Hcall.
  cbn [fst snd] in Hr, Hs. subst r.
  vm_compute in Hcall. inversion Hcall; subst. reflexivity.
Defined.

(** X2.  What [get_character] does not turn into [None]: a call the open
    breaker refuses raises [CircuitBreakerError] and sends nothing; a 2xx
    reply that is a JSON object failing validation raises the validation
    error; a 2xx reply that is not a JSON object raises [TypeError]. *)
Theorem get_character_raises_what_is_not_an_api_error
    {lib : PyLib} (up : upstream) (character_id : Z) (w : world) :
  (CB.opened (breaker w) (clock w) = true ->
   get_character up character_id w = (Raise CircuitBreakerError, w))
  /\ (forall status_code data,
        CB.opened (breaker w) (clock w) = false ->
        outcome (up (sent w)
                    {| endpoint := character_endpoint character_id; params := [] |})
        = HttpResponse status_code (Some data) ->
        is_success status_code = true ->
        fst (get_character up character_id w)
        = match data with
          | JObj _ =>
              match model_validate data with
              | Some c => Return (Some c)
              | None => Raise ValueError
              end
          | _ => Raise TypeError
          end).
Proof.
  split.
  - intros Hopen. unfold get_character.
    rewrite make_request_refused by assumption. reflexivity.
  - intros code data Hopen Ho Hs. unfold get_character.
    destruct (successful_call up _ w code data Hopen Ho Hs) as (w' & Heq & _).
    rewrite Heq.
    destruct data as [| | | | |fields]; try reflexivity.
    destruct (model_validate (JObj fields)); reflexivity.
Qed.

Lemma get_character_raises_what_is_not_an_api_error_witness :
  get_character (lib := Reference.lib) down 1 (sleep (-1) tripped)
    = (Raise CircuitBreakerError, sleep (-1) tripped)
  /\ fst (get_character (lib := Reference.lib) (serving [nameless_json]) 1 boot)
     = Raise ValueError
  /\ fst (get_character (lib := Reference.lib) (serving [rick]) 1 boot)
     = Return (Some rick_response).
Proof.
  split.
  - apply (proj1 (get_character_raises_what_is_not_an_api_error
                    (lib := Reference.lib) down 1 (sleep (-1) tripped))).
    vm_compute. reflexivity.
  - split.
    + apply (proj2 (get_character_raises_what_is_not_an_api_error
                      (lib := Reference.lib) (serving [nameless_json]) 1 boot)
               200 nameless_json); reflexivity.
    + apply (proj2 (get_character_raises_what_is_not_an_api_error
                      (lib := Reference.lib) (serving [rick]) 1 boot)
               200 rick); reflexivity.
Defined.

(** X3.  [health_check] reports healthy exactly when the breaker lets the
    call through and the upstream answers 2xx with a JSON object whose
    [info] is absent or is itself an object; the count and the number of
    pages it reports are those of [info], 0 when missing. *)
Theorem health_check_healthy_iff
    (up : upstream) (w : world) (count pages : json) :
  fst (health_check up w) = ApiHealthy count pages <->
  CB.opened (breaker w) (clock w) = false
  /\ exists status_code fields info,
       outcome (up (sent w) {| endpoint := "character"; params := [] |})
       = HttpResponse status_code (Some (JObj fields))
       /\ is_success status_code = true
       /\ match assoc "info" fields with
          | Some v => v
          | None => JObj []
          end = JObj info
       /\ count = match assoc "count" info with Some v => v | None => JNum 0 end
       /\ pages = match assoc "pages" info with Some v => v | None => JNum 0 end.
Proof.
  unfold health_check. split.
  - destruct (_make_request up {| endpoint := "character"; params := [] |} w)
      as [[data|e] w1] eqn:Hcall; [|discriminate].
    destruct (make_request_return up _ _ _ _ Hcall) as (Hopen & code & Ho & Hs).
    cbn [fst].
    destruct data as [| | | | |fields]; cbn [dict_get]; try discriminate.
    destruct (match assoc "info" fields with Some v => v | None => JObj [] end)
      as [| | | | |info] eqn:Hinfo; cbn [dict_get]; try discriminate.
    intros H; inversion H; subst.
    split; [assumption|]. exists code, fields, info. auto.
  - intros (Hopen & code & fields & info & Ho & Hs & Hinfo & -> & ->).
    destruct (successful_call up _ w code (JObj fields) Hopen Ho Hs) as (w' & Heq & _).
    rewrite Heq. cbn [fst dict_get]. rewrite Hinfo. reflexivity.
Qed.

Lemma health_check_healthy_iff_witness :
  fst (health_check
         (serving [page_json [rick] JNull]) boot) = ApiHealthy (JNum 2) (JNum 2)
  /\ CB.opened (breaker boot) (clock boot) = false.
Proof.
  split.
  - apply (proj2 (health_check_healthy_iff
                    (serving [page_json [rick] JNull]) boot (JNum 2) (JNum 2))).
    split; [reflexivity|].
    exists 200, [("info", JObj [("count", JNum 2); ("pages", JNum 2); ("next", JNull)]);
                 ("results", JArr [rick])]%string,
           [("count", JNum 2); ("pages", JNum 2); ("next", JNull)]%string.
    repeat split.
  - exact (proj1 (proj1 (health_check_healthy_iff
                           (serving [page_json [rick] JNull]) boot (JNum 2) (JNum 2))
                    eq_refl)).
Defined.

Section SharedBreakerFacts.
Context {lib : PyLib} (up : upstream).

Lemma health_check_world w :
  snd (health_check up w) = snd (_make_request up health_request w).
Proof.
  unfold health_check, health_request.
  destruct (_make_request up {| endpoint := "character"; params := [] |} w)
    as [[data|e] w1]; [|reflexivity].
  destruct (dict_get data "info" (JObj [])) as [info|e]; [|reflexivity].
  destruct (dict_get info "count" (JNum 0)) as [count|e];
    destruct (dict_get info "pages" (JNum 0)); reflexivity.
Qed.

Lemma health_checks_call_seq n : forall w,
  health_checks up n w = call_seq up (replicate n health_request) w.
Proof.
  induction n as [|n IH]; intros w; [reflexivity|].
  cbn [health_checks replicate call_seq]. rewrite health_check_world. apply IH.
Qed.

(** Five failing calls in a row open a closed breaker. *)
Lemma five_failures_open reqs w :
  _state (breaker w) = STATE_CLOSED ->
  _failure_count (breaker w) = 0 ->
  length reqs = 5%nat ->
  all_failing up reqs (sent w) ->
  _state (breaker (call_seq up reqs w)) = STATE_OPEN
  /\ _opened (breaker (call_seq up reqs w)) = clock (call_seq up reqs w)
  /\ sent (call_seq up reqs w) = (sent w + 5)%nat.
Proof.
  intros Hc H0 Hlen Hf.
  destruct reqs as [|r1 [|r2 [|r3 [|r4 [|r5 [|r6 rest]]]]]]; try discriminate.
  clear Hlen.
  change [r1; r2; r3; r4; r5] with ([r1; r2; r3; r4] ++ [r5]) in Hf |- *.
  apply all_failing_app in Hf. destruct Hf as [Hf4 Hf5].
  destruct (failing_calls_below_threshold up [r1; r2; r3; r4] w Hc) as (Hc4 & Hn4 & Hs4).
  { rewrite H0. unfold failure_threshold. cbn [length]. lia. }
  { assumption. }
  cbn [length] in Hn4, Hs4, Hf5.
  rewrite call_seq_snoc.
  remember (call_seq up [r1; r2; r3; r4] w) as w4 eqn:Hw4. clear Hw4 Hf4.
  cbn [all_failing] in Hf5. destruct Hf5 as [Hf5 _].
  rewrite <- Hs4 in Hf5.
  destruct (failing_call up r5 w4 (closed_not_opened _ _ Hc4) Hf5)
    as (e & w5 & Heq & Hs5 & Hb5).
  rewrite Heq. cbn [snd].
  assert (Hb : breaker w5 = {| _state := STATE_OPEN; _failure_count := 5;
                               _opened := clock w5 |}).
  { rewrite Hb5. unfold CB.call_failed. rewrite Hn4, H0. reflexivity. }
  rewrite Hb. cbn [_state _opened].
  split; [reflexivity|]. split; [reflexivity|]. lia.
Qed.

(** The crawl against a breaker that refuses: nothing found, nothing sent. *)
Lemma crawl_refused fuel w :
  CB.opened (breaker w) (clock w) = true ->
  get_all_filtered_characters up (S fuel) w = Some (Return [], w).
Proof.
  intros Hopen. unfold get_all_filtered_characters. cbn [crawl_loop].
  unfold crawl_page, get_characters.
  rewrite make_request_refused by assumption. reflexivity.
Qed.

End SharedBreakerFacts.

(** X4.  The health check and the crawl share one breaker.  After five
    health checks in a row that fail, and for the next 30 seconds, a crawl
    returns no record and a sync returns 0, without a request to the
    upstream and without touching the table or the cache. *)
Theorem failed_health_checks_stop_the_sync
    {lib : PyLib} (up : upstream) (fuel : nat) (f : faults) (w w' : world)
    (db : session) (cache : CacheManager) :
  _state (breaker w) = STATE_CLOSED ->
  _failure_count (breaker w) = 0 ->
  all_failing up (replicate 5 health_request) (sent w) ->
  breaker w' = breaker (health_checks up 5 w) ->
  clock w' < clock (health_checks up 5 w) + recovery_timeout ->
  get_all_filtered_characters up (S fuel) w' = Some (Return [], w')
  /\ sync_characters_from_api up (S fuel) f w' db cache = Some (Return 0, w', db, cache).
Proof.
  intros Hc H0 Hf Hb Hclock.
  rewrite health_checks_call_seq in Hb, Hclock.
  destruct (five_failures_open up (replicate 5 health_request) w Hc H0 eq_refl Hf)
    as (Hopen & Hopened & _).
  assert (Hrefuse : CB.opened (breaker w') (clock w') = true).
  { rewrite Hb. apply open_within_window; [assumption|]. rewrite Hopened. assumption. }
  pose proof (crawl_refused up fuel w' Hrefuse) as Hcrawl.
  split; [assumption|].
  unfold sync_characters_from_api. rewrite Hcrawl. reflexivity.
Qed.

(** The upstream is down for five health checks and back afterwards: the
    sync 20 seconds later still does nothing. *)
Lemma failed_health_checks_stop_the_sync_witness :
  let up := outage 5 [page_json [rick_updated] JNull] in
  let w5 := health_checks up 5 boot in
  failing (outcome (up 5%nat (crawl_request 1))) = false
  /\ sync_characters_from_api (lib := Reference.lib)
       up 3 no_faults (sleep 20000 w5) rick_db offline
     = Some (Return 0, sleep 20000 w5, rick_db, offline).
Proof.
  intros up w5. split; [reflexivity|].
  refine (proj2 (failed_health_checks_stop_the_sync (lib := Reference.lib)
                   up 2 no_faults boot (sleep 20000 w5)
                   rick_db offline eq_refl eq_refl _ eq_refl _)).
  - cbn. repeat split.
  - vm_compute. reflexivity.
Defined.

Section CrawlRestFacts.
Context {lib : PyLib}.

Lemma get_characters_crawl_request up page w :
  get_characters up page None (Some "Alive"%string) (Some "Human"%string) None w
  = _make_request up (crawl_request page) w.
Proof. reflexivity. Qed.

Lemma crawl_page_ext (up1 up2 : upstream) page acc w :
  up1 (sent w) (crawl_request page) = up2 (sent w) (crawl_request page) ->
  crawl_page up1 page acc w = crawl_page up2 page acc w.
Proof.
  intros Hup. unfold crawl_page. rewrite !get_characters_crawl_request.
  rewrite (make_request_ext up1 up2 _ _ Hup). reflexivity.
Qed.

End CrawlRestFacts.

(** X5.  The crawl asks the upstream for nothing but pages of characters
    that are alive and human: two upstreams that answer those requests
    alike give the same crawl, whatever they answer to other requests. *)
Theorem crawl_only_asks_for_alive_human_pages
    {lib : PyLib} (up1 up2 : upstream) :
  (forall n page, up1 n (crawl_request page) = up2 n (crawl_request page)) ->
  forall fuel page all_characters w,
    crawl_loop up1 fuel page all_characters w
    = crawl_loop up2 fuel page all_characters w.
Proof.
  intros Hup. induction fuel as [|fuel IH]; intros page acc w; [reflexivity|].
  cbn [crawl_loop]. rewrite (crawl_page_ext up1 up2 page acc w (Hup _ _)).
  destruct (crawl_page up2 page acc w) as [[r acc'] w1].
  destruct r as [[|n]|e]; try reflexivity. apply IH.
Qed.

Lemma crawl_only_asks_for_alive_human_pages_witness :
  let pages := [page_json [rick] (JStr "https://rickandmortyapi.com/api/character?page=2");
                page_json [summer] JNull] in
  outcome (crawl_only pages 0%nat health_request)
    <> outcome (serving pages 0%nat health_request)
  /\ get_all_filtered_characters (lib := Reference.lib) (crawl_only pages) 5 boot
     = get_all_filtered_characters (lib := Reference.lib) (serving pages) 5 boot.
Proof.
  intros pages. split; [discriminate|].
  apply (crawl_only_asks_for_alive_human_pages (lib := Reference.lib)
           (crawl_only pages) (serving pages)).
  intros n page. reflexivity.
Defined.

(** X6.  One item whose origin name cannot be read (an origin that is not an
    object, a name that is not a string) makes the filter raise, and the
    crawl ends there with what it had before this page: the page adds
    nothing, not even the valid records listed before the bad item. *)
Theorem unreadable_origin_drops_the_page
    {lib : PyLib} (up : upstream) (fuel : nat) (page : Z)
    (all_characters : list CharacterResponse.t) (w w1 : world) (data : json)
    (good : list json) (bad : json) (rest : list json) (e : exn) :
  get_characters up page None (Some "Alive"%string) (Some "Human"%string) None w
    = (Return data, w1) ->
  dict_get data "results" (JArr []) = Return (JArr (good ++ bad :: rest)) ->
  Forall (fun item => exists s, origin_name_lower item = Return s) good ->
  origin_name_lower bad = Raise e ->
  _filter_earth_characters (JArr (good ++ bad :: rest)) = Raise e
  /\ crawl_loop up (S fuel) page all_characters w = Some (Return all_characters, w1).
Proof.
  intros Hget Hres Hgood Hbad.
  assert (Hfilter : _filter_earth_characters (JArr (good ++ bad :: rest)) = Raise e).
  { unfold _filter_earth_characters. cbn [py_iter].
    apply filter_loop_unreadable; assumption. }
  split; [assumption|].
  cbn [crawl_loop]. unfold crawl_page. rewrite Hget, Hres.
  assert (Htruthy : truthy (JArr (good ++ bad :: rest)) = true).
  { cbn [truthy]. destruct good; reflexivity. }
  rewrite Htruthy, Hfilter. cbn [negb]. destruct e; reflexivity.
Qed.

Lemma unreadable_origin_drops_the_page_witness :
  exists w1,
    get_all_filtered_characters (lib := Reference.lib)
      (serving [page_json [rick; no_origin_json; summer] JNull]) 5 boot
    = Some (Return [], w1).
Proof.
  eexists.
  refine (proj2 (unreadable_origin_drops_the_page (lib := Reference.lib)
                   (serving [page_json [rick; no_origin_json; summer] JNull])
                   4 1 [] boot _
                   (page_json [rick; no_origin_json; summer] JNull)
                   [rick] no_origin_json [summer] AttributeError
                   _ eq_refl _ eq_refl)).
  - vm_compute. reflexivity.
  - repeat constructor. eexists. vm_compute. reflexivity.
Defined.

(** X7.  When no page the upstream serves advertises a next page number
    above [last], the crawl ends: from page [page] it needs at most
    [last - page + 1] turns, and it hands back a list. *)
Theorem crawl_ends_when_advertised_pages_are_bounded
    {lib : PyLib} (up : upstream) (last : Z) :
  (forall n req status_code data m,
      outcome (up n req) = HttpResponse status_code (Some data) ->
      parsed_next_page data = Some m -> m <= last) ->
  forall fuel page all_characters w,
    (Z.to_nat (last - page) < fuel)%nat ->
    exists l w', crawl_loop up fuel page all_characters w = Some (Return l, w').
Proof.
  intros Hbound. apply crawl_terminates_when_pages_bounded.
  intros page acc w n acc' w'. unfold crawl_page.
  destruct (get_characters up page None (Some "Alive"%string) (Some "Human"%string) None w)
    as [[data|e] w1] eqn:Hget; [|discriminate].
  destruct (dict_get data "results" (JArr [])) as [characters|e]; [|discriminate].
  destruct (truthy characters); cbn [negb]; [|discriminate].
  destruct (_filter_earth_characters characters) as [earth|e]; [|discriminate].
  destruct (_extract_next_page_number data page) as [[m|]|e] eqn:Hnext; try discriminate.
  destruct (Z.eqb_spec m 0) as [Hm|Hm]; [discriminate|].
  intros H; inversion H; subst.
  destruct (extract_next_page_some _ _ _ Hnext) as [[Hparsed _]|H0]; [|contradiction].
  rewrite get_characters_crawl_request in Hget.
  destruct (make_request_return up _ _ _ _ Hget) as (_ & code & Ho & _).
  exact (Hbound _ _ _ _ _ Ho Hparsed).
Qed.

Lemma crawl_ends_when_advertised_pages_are_bounded_witness :
  let pages := [page_json [rick] (JStr "https://rickandmortyapi.com/api/character?page=2");
                page_json [summer] (JStr "https://rickandmortyapi.com/api/character?page=3")] in
  exists l w',
    crawl_loop (lib := Reference.lib) (serving pages) 3 1 [] boot = Some (Return l, w').
Proof.
  intros pages.
  apply (crawl_ends_when_advertised_pages_are_bounded (lib := Reference.lib)
           (serving pages) 3); [|vm_compute; lia].
  intros n req code data m Ho Hm.
  destruct n as [|[|n]].
  - inversion Ho; subst. vm_compute in Hm. inversion Hm. lia.
  - inversion Ho; subst. vm_compute in Hm. inversion Hm. lia.
  - destruct n; discriminate.
Defined.

(** ** The rest of the cache *)

Section CacheRestFacts.

Lemma full_key_inj key key' :
  cache_prefix +:+ key = cache_prefix +:+ key' -> key = key'.
Proof. unfold cache_prefix. cbn. intros H. injection H. auto. Qed.

Lemma not_usable cache :
  _connected cache = false \/ redis_client cache = None \/ reachable cache = false ->
  Cache.usable cache = None.
Proof.
  unfold Cache.usable. intros [H|[H|H]]; rewrite H.
  - reflexivity.
  - destruct (_connected cache); reflexivity.
  - destruct (_connected cache), (redis_client cache); reflexivity.
Qed.

Lemma get_with_store cache store store' t key :
  Cache.usable cache = Some store ->
  Cache.get (Cache.with_store cache store') t key
  = match store' !! (cache_prefix +:+ key) with
    | Some entry => if Cache.live t entry then Some (fst entry) else None
    | None => None
    end.
Proof.
  intros Hu. unfold Cache.get. rewrite (usable_with_store _ _ _ Hu). reflexivity.
Qed.

End CacheRestFacts.

(** X8.  On a usable cache, [set] answers true; the value is then read back
    under its key until the entry expires, and not afterwards; every other
    key reads as before.  The entry lives for the given number of seconds,
    and for 3600 seconds when no time to live, or 0, is given. *)
Theorem set_then_get
    (cache : CacheManager) (store : redis) (now : Z) (key : string)
    (value : cache_value) (ttl : option Z) (seconds : Z) :
  Cache.usable cache = Some store ->
  (ttl = Some seconds /\ 0 < seconds)
  \/ ((ttl = None \/ ttl = Some 0) /\ seconds = 3600) ->
  fst (Cache.set cache now key value ttl) = true
  /\ (forall t,
        Cache.get (snd (Cache.set cache now key value ttl)) t key
        = if t <? now + 1000 * seconds then Some value else None)
  /\ (forall t key',
        key' <> key ->
        Cache.get (snd (Cache.set cache now key value ttl)) t key'
        = Cache.get cache t key').
Proof.
  intros Hu Httl. unfold Cache.set. rewrite Hu.
  assert (Heff : match ttl with
                 | Some t => if t =? 0 then cache_ttl else t
                 | None => cache_ttl
                 end = seconds).
  { destruct Httl as [[-> Hpos]|[[-> | ->] ->]]; try reflexivity.
    destruct (Z.eqb_spec seconds 0); [lia|reflexivity]. }
  rewrite Heff. cbn [fst snd]. split; [reflexivity|]. split.
  - intros t. rewrite (get_with_store _ _ _ _ _ Hu), lookup_insert_eq. reflexivity.
  - intros t key' Hne. rewrite (get_with_store _ _ _ _ _ Hu).
    rewrite lookup_insert_ne.
    + unfold Cache.get. rewrite Hu. reflexivity.
    + intros Heq. apply Hne. symmetry. exact (full_key_inj _ _ Heq).
Qed.

Lemma set_then_get_witness :
  Cache.get rick_cached 3600099 "character:1" = Some (CharacterDump (to_response rick_row))
  /\ Cache.get rick_cached 3600100 "character:1" = None.
Proof.
  destruct (set_then_get online ∅ 100 "character:1"
              (CharacterDump (to_response rick_row)) None 3600 eq_refl)
    as (_ & Hget & _).
  { right. split; [left|]; reflexivity. }
  split; [exact (Hget 3600099)|exact (Hget 3600100)].
Defined.

(** X9.  A cache manager that is not connected, has no client, or whose
    Redis does not answer turns every operation into a no-op: [get] finds
    nothing, [set] and [delete] answer false, [exists] answers false,
    [clear_pattern] answers 0, and the manager is left as it was.  None of
    them raises. *)
Theorem unusable_cache_is_a_no_op
    (cache : CacheManager) (now : Z) (key : string) (value : cache_value)
    (ttl : option Z) :
  _connected cache = false \/ redis_client cache = None \/ reachable cache = false ->
  Cache.get cache now key = None
  /\ Cache.set cache now key value ttl = (false, cache)
  /\ CacheManager.delete cache now key = (false, cache)
  /\ CacheManager.exists_ cache now key = false
  /\ Cache.clear_pattern cache now key = (0, cache).
Proof.
  intros H. apply not_usable in H.
  unfold Cache.get, Cache.set, CacheManager.delete, CacheManager.exists_,
    Cache.clear_pattern.
  rewrite H. repeat split.
Qed.

Lemma unusable_cache_is_a_no_op_witness :
  Cache.get offline 0 "character:1" = None
  /\ Cache.set offline 0 "character:1" (CharacterDump (to_response rick_row)) (Some 3600)
     = (false, offline).
Proof.
  destruct (unusable_cache_is_a_no_op offline 0 "character:1"
              (CharacterDump (to_response rick_row)) (Some 3600))
    as (Hget & Hset & _).
  { left. reflexivity. }
  split; assumption.
Defined.

(** X10.  On a usable cache, [delete] answers whether the key existed
    (present and not expired), which is what [exists] answered before;
    afterwards the key is gone for [get] and [exists], and every other key
    reads as before. *)
Theorem delete_removes_the_key
    (cache : CacheManager) (store : redis) (now : Z) (key : string) :
  Cache.usable cache = Some store ->
  fst (CacheManager.delete cache now key) = CacheManager.exists_ cache now key
  /\ (CacheManager.exists_ cache now key = true <->
      exists value, Cache.get cache now key = Some value)
  /\ (forall t, Cache.get (snd (CacheManager.delete cache now key)) t key = None)
  /\ (forall t, CacheManager.exists_ (snd (CacheManager.delete cache now key)) t key
                = false)
  /\ (forall t key',
        key' <> key ->
        Cache.get (snd (CacheManager.delete cache now key)) t key'
        = Cache.get cache t key').
Proof.
  intros Hu. unfold CacheManager.delete, CacheManager.exists_. rewrite Hu.
  cbn [fst snd]. split; [reflexivity|]. split.
  - unfold Cache.get. rewrite Hu.
    destruct (store !! (cache_prefix +:+ key)) as [entry|].
    + destruct (Cache.live now entry); split; intros H; eauto; try discriminate.
      destruct H; discriminate.
    + split; intros H; [discriminate|destruct H; discriminate].
  - split.
    + intros t. rewrite (get_with_store _ _ _ _ _ Hu), lookup_delete_eq. reflexivity.
    + split.
      * intros t. rewrite (usable_with_store _ _ _ Hu), lookup_delete_eq. reflexivity.
      * intros t key' Hne. rewrite (get_with_store _ _ _ _ _ Hu).
        rewrite lookup_delete_ne.
        -- unfold Cache.get. rewrite Hu. reflexivity.
        -- intros Heq. apply Hne. symmetry. exact (full_key_inj _ _ Heq).
Qed.

Lemma delete_removes_the_key_witness :
  fst (CacheManager.delete rick_cached 200 "character:1") = true
  /\ Cache.get (snd (CacheManager.delete rick_cached 200 "character:1")) 200 "character:1"
     = None.
Proof.
  destruct (delete_removes_the_key rick_cached
              {[ (cache_prefix +:+ "character:1") :=
                   (CharacterDump (to_response rick_row), 3600100) ]}
              200 "character:1") as (Hd & _ & Hget & _).
  { vm_compute. reflexivity. }
  split; [rewrite Hd; vm_compute; reflexivity|apply Hget].
Defined.

(** X11.  On a usable cache, after [clear_pattern] a key that matches the
    pattern reads as absent and every other key reads as before. *)
Theorem clear_pattern_clears_exactly_the_matches
    (cache : CacheManager) (store : redis) (now : Z) (pattern : string)
    (t : Z) (key : string) :
  Cache.usable cache = Some store ->
  Cache.get (snd (Cache.clear_pattern cache now pattern)) t key
  = if glob_match (cache_prefix +:+ pattern) (cache_prefix +:+ key)
    then None
    else Cache.get cache t key.
Proof.
  intros Hu.
  destruct (glob_match (cache_prefix +:+ pattern) (cache_prefix +:+ key)) eqn:Hglob.
  - exact (clear_pattern_deletes _ _ _ _ _ _ Hu Hglob).
  - exact (clear_pattern_keeps _ _ _ _ _ Hglob).
Qed.

Lemma clear_pattern_clears_exactly_the_matches_witness :
  Cache.get (snd (Cache.clear_pattern rick_cached 200 "character:*")) 200 "character:1"
  = None
  /\ Cache.get (snd (Cache.clear_pattern rick_cached 200 "characters:*")) 200 "character:1"
     = Some (CharacterDump (to_response rick_row)).
Proof.
  split.
  - rewrite (clear_pattern_clears_exactly_the_matches rick_cached
               {[ (cache_prefix +:+ "character:1") :=
                    (CharacterDump (to_response rick_row), 3600100) ]}
               200 "character:*" 200 "character:1"); [reflexivity|].
    vm_compute. reflexivity.
  - rewrite (clear_pattern_clears_exactly_the_matches rick_cached
               {[ (cache_prefix +:+ "character:1") :=
                    (CharacterDump (to_response rick_row), 3600100) ]}
               200 "characters:*" 200 "character:1"); [|vm_compute; reflexivity].
    vm_compute. reflexivity.
Defined.

(** X12.  When [connect] fails, the exception is raised and the manager
    keeps its client but is marked as not connected; nothing sets the mark
    again, so once Redis answers, [health_check] reports the cache healthy
    while [get], [set] and [clear_pattern] still do nothing. *)
Theorem failed_connect_leaves_cache_unused
    (server : redis) (cache : CacheManager) (now : Z) (key : string)
    (value : cache_value) (ttl : option Z) :
  redis_client cache = redis_client (snd (CacheManager.connect server false)) ->
  _connected cache = _connected (snd (CacheManager.connect server false)) ->
  reachable cache = true ->
  (exists e, fst (CacheManager.connect server false) = Raise e)
  /\ CacheManager.health_check cache = CacheHealthy
  /\ Cache.get cache now key = None
  /\ Cache.set cache now key value ttl = (false, cache)
  /\ Cache.clear_pattern cache now key = (0, cache).
Proof.
  intros Hclient Hconn Hreach. cbn in Hclient, Hconn.
  split; [cbn; eauto|].
  split; [unfold CacheManager.health_check; rewrite Hclient, Hreach; reflexivity|].
  assert (Hu : Cache.usable cache = None) by (apply not_usable; auto).
  unfold Cache.get, Cache.set, Cache.clear_pattern. rewrite Hu. repeat split.
Qed.

Lemma failed_connect_leaves_cache_unused_witness :
  let cache := {| redis_client := Some ∅; _connected := false; reachable := true |} in
  CacheManager.health_check cache = CacheHealthy
  /\ Cache.set cache 0 "character:1" (CharacterDump (to_response rick_row)) (Some 3600)
     = (false, cache).
Proof.
  intros cache.
  destruct (failed_connect_leaves_cache_unused ∅ cache 0 "character:1"
              (CharacterDump (to_response rick_row)) (Some 3600)
              eq_refl eq_refl eq_refl) as (_ & Hh & _ & Hset & _).
  split; assumption.
Defined.

(** ** The listing *)

Section ListingFacts.
Context (collate : string -> string -> bool).

Lemma sort_rows_perm le table : CharacterService.sort_rows le table ≡ₚ table.
Proof. unfold CharacterService.sort_rows. apply merge_sort_Permutation. Qed.

Lemma order_by_perm sort_by sort_order table :
  CharacterService.order_by collate sort_by sort_order table ≡ₚ table.
Proof.
  unfold CharacterService.order_by.
  destruct (String.eqb (lower sort_order) "desc"); apply sort_rows_perm.
Qed.

Lemma order_by_length sort_by sort_order table :
  length (CharacterService.order_by collate sort_by sort_order table) = length table.
Proof. apply Permutation_length, order_by_perm. Qed.

(** A read that misses the cache is the window of the ordered table. *)
Lemma listing_miss now db cache page per_page sort_by sort_order :
  Cache.get cache now (CharacterService.listing_key page per_page sort_by sort_order)
  = None ->
  1 <= page -> 0 <= per_page ->
  fst (CharacterService.get_characters collate now db cache page per_page
         sort_by sort_order)
  = Return (map to_response
              (take (Z.to_nat per_page)
                    (drop (Z.to_nat ((page - 1) * per_page))
                          (CharacterService.order_by collate sort_by sort_order (rows db)))),
            Z.of_nat (length (rows db))).
Proof.
  intros Hmiss Hpage Hper. unfold CharacterService.get_characters. rewrite Hmiss.
  destruct (Z.ltb_spec ((page - 1) * per_page) 0) as [Hneg|_]; [nia|].
  destruct (Z.ltb_spec per_page 0) as [Hneg|_]; [lia|].
  cbn [orb].
  destruct (Cache.set cache now _ _ _) as [ok cache']. reflexivity.
Qed.

End ListingFacts.

(** X13.  A listing read that misses the cache, for a page number of at
    least 1, returns the number of all rows as the total, whatever the page,
    and at most [per_page] records: as many as are left from the page's
    offset on, none when the page lies past the end (not an error).  Every
    record returned is the response form of a row of the table. *)
Theorem listing_page_size_and_total
    (collate : string -> string -> bool) (now : Z) (db : session)
    (cache : CacheManager) (page per_page : Z) (sort_by sort_order : string) :
  Cache.get cache now (CharacterService.listing_key page per_page sort_by sort_order)
  = None ->
  1 <= page -> 0 <= per_page ->
  exists characters,
    fst (CharacterService.get_characters collate now db cache page per_page
           sort_by sort_order)
    = Return (characters, Z.of_nat (length (rows db)))
    /\ Z.of_nat (length characters)
       = Z.min per_page
               (Z.max 0 (Z.of_nat (length (rows db)) - (page - 1) * per_page))
    /\ forall c, c ∈ characters -> exists row, row ∈ rows db /\ c = to_response row.
Proof.
  intros Hmiss Hpage Hper. eexists. split; [apply listing_miss; assumption|]. split.
  - rewrite length_map, length_take, length_drop, order_by_length. nia.
  - intros c Hc. apply list_elem_of_fmap in Hc as (row & -> & Hrow).
    exists row. split; [|reflexivity].
    apply subseteq_take, subseteq_drop in Hrow.
    rewrite order_by_perm in Hrow. assumption.
Qed.

(** The listing of the tests: five rows, page 2 of size 2, by id. *)
Lemma listing_page_size_and_total_witness :
  (fun r => (map FilteredCharacterResponse.id (fst r), snd r))
    <$> (match fst (CharacterService.get_characters String.leb 0 five_db offline 2 2 "id" "asc") with
         | Return r => Some r
         | Raise _ => None
         end)
  = Some ([3; 4], 5).
Proof.
  destruct (listing_page_size_and_total String.leb 0 five_db offline 2 2 "id" "asc"
              eq_refl) as (characters & Hread & Hlen & _); [lia|lia|].
  rewrite Hread. cbn [fmap option_fmap option_map fst snd].
  vm_compute in Hread. injection Hread as <-. reflexivity.
Defined.

Section ListingMoreFacts.
Context (collate : string -> string -> bool).

Lemma get_unusable cache now key :
  Cache.usable cache = None -> Cache.get cache now key = None.
Proof. intros Hu. unfold Cache.get. rewrite Hu. reflexivity. Qed.

Lemma listed_miss now db cache page per_page sort_by sort_order :
  Cache.get cache now (CharacterService.listing_key page per_page sort_by sort_order)
  = None ->
  1 <= page -> 0 <= per_page ->
  listed (CharacterService.get_characters collate now db cache page per_page
            sort_by sort_order)
  = map to_response
      (take (Z.to_nat per_page)
            (drop (Z.to_nat ((page - 1) * per_page))
                  (CharacterService.order_by collate sort_by sort_order (rows db)))).
Proof.
  intros Hmiss Hpage Hper. unfold listed.
  rewrite (listing_miss collate _ _ _ _ _ _ _ Hmiss Hpage Hper). reflexivity.
Qed.

(** Sorting by a total and transitive comparison sorts. *)
Lemma sort_rows_sorted (le : Character.t -> Character.t -> bool) table :
  (forall a b, le a b = true \/ le b a = true) ->
  (forall a b c, le a b = true -> le b c = true -> le a c = true) ->
  StronglySorted (fun a b => le a b = true) (CharacterService.sort_rows le table).
Proof.
  intros Htotal Htrans. unfold CharacterService.sort_rows.
  apply StronglySorted_merge_sort.
  - intros a b c. apply Htrans.
  - intros a b. apply Htotal.
Qed.

Lemma window_sorted {A} (R : relation A) (l : list A) n m :
  StronglySorted R l -> StronglySorted R (take n (drop m l)).
Proof.
  intros Hl. rewrite <- (take_drop m l) in Hl.
  apply StronglySorted_app_1_r in Hl.
  rewrite <- (take_drop n (drop m l)) in Hl.
  exact (StronglySorted_app_1_l _ _ _ Hl).
Qed.

End ListingMoreFacts.

(** X14.  Read page after page without a cache and ordered by id (the ids
    being unique, the order of the rows is the same at every read), pages 1
    to [n] of a listing put end to end are the first [n * per_page] rows of
    the ordered table: no row is skipped and none is listed twice.  Once
    [n * per_page] reaches the number of rows, they are the whole table,
    each row once. *)
Theorem listing_pages_tile_the_table
    (collate : string -> string -> bool) (now : Z) (db : session)
    (cache : CacheManager) (per_page : Z) (sort_by sort_order : string) (n : nat) :
  NoDup (map Character.id (rows db)) ->
  sort_by <> "name"%string -> sort_by <> "created_at"%string ->
  Cache.usable cache = None ->
  1 <= per_page ->
  flat_map (fun p => listed (CharacterService.get_characters collate now db cache
                               (Z.of_nat p) per_page sort_by sort_order))
           (seq 1 n)
  = map to_response
      (take (n * Z.to_nat per_page)
            (CharacterService.order_by collate sort_by sort_order (rows db)))
  /\ ((length (rows db) <= n * Z.to_nat per_page)%nat ->
      flat_map (fun p => listed (CharacterService.get_characters collate now db cache
                                   (Z.of_nat p) per_page sort_by sort_order))
               (seq 1 n)
      ≡ₚ map to_response (rows db)).
Proof.
  intros _ _ _ Hu Hper.
  assert (Htile :
    flat_map (fun p => listed (CharacterService.get_characters collate now db cache
                                 (Z.of_nat p) per_page sort_by sort_order))
             (seq 1 n)
    = map to_response
        (take (n * Z.to_nat per_page)
              (CharacterService.order_by collate sort_by sort_order (rows db)))).
  { induction n as [|n IH]; [reflexivity|].
    rewrite seq_S, flat_map_app, IH. cbn [flat_map]. rewrite app_nil_r.
    rewrite listed_miss; [|apply get_unusable; assumption|lia|lia].
    rewrite <- map_app. f_equal.
    replace (Z.to_nat ((Z.of_nat (1 + n) - 1) * per_page))
      with (n * Z.to_nat per_page)%nat by nia.
    rewrite take_take_drop. f_equal. lia. }
  split; [exact Htile|].
  intros Hall. rewrite Htile, take_ge by (rewrite order_by_length; assumption).
  apply fmap_Permutation, order_by_perm.
Qed.

Lemma listing_pages_tile_the_table_witness :
  map FilteredCharacterResponse.id
      (flat_map (fun p => listed (CharacterService.get_characters String.leb 0 five_db
                                    offline (Z.of_nat p) 2 "id" "desc"))
                (seq 1 3))
  = [5; 4; 3; 2; 1].
Proof.
  destruct (listing_pages_tile_the_table String.leb 0 five_db offline 2 "id" "desc" 3)
    as [Htile _].
  - apply (bool_decide_unpack _). vm_compute. reflexivity.
  - discriminate.
  - discriminate.
  - reflexivity.
  - lia.
  - rewrite Htile. vm_compute. reflexivity.
Defined.

(** X15.  A listing read from the table is in the order asked for: by
    [created_at] when that is the sort column and by id for every sort
    column other than [name] and [created_at], ascending unless the order,
    in any case, spells [desc]. *)
Theorem listing_is_ordered
    (collate : string -> string -> bool) (now : Z) (db : session)
    (cache : CacheManager) (page per_page : Z) (sort_by sort_order : string)
    (characters : list FilteredCharacterResponse.t) (total : Z) :
  Cache.get cache now (CharacterService.listing_key page per_page sort_by sort_order)
  = None ->
  fst (CharacterService.get_characters collate now db cache page per_page
         sort_by sort_order) = Return (characters, total) ->
  sort_by <> "name"%string ->
  let key := if String.eqb sort_by "created_at"
             then FilteredCharacterResponse.created_at
             else FilteredCharacterResponse.id in
  if String.eqb (lower sort_order) "desc"
  then StronglySorted (fun a b => b <= a) (map key characters)
  else StronglySorted Z.le (map key characters).
Proof.
  intros Hmiss Hread Hname key.
  unfold CharacterService.get_characters in Hread. rewrite Hmiss in Hread.
  destruct ((page - 1) * per_page <? 0) eqn:Hoff; [discriminate|].
  destruct (per_page <? 0) eqn:Hper; [discriminate|]. cbn [orb] in Hread.
  destruct (Cache.set cache now _ _ _) as [ok cache'].
  cbn [fst] in Hread. injection Hread as <- _.
  assert (Hcol : forall a b,
             CharacterService.column_le collate sort_by a b
             = (key (to_response a) <=? key (to_response b))).
  { intros a b. unfold CharacterService.column_le, key.
    destruct (String.eqb_spec sort_by "name") as [->|_]; [contradiction|].
    destruct (String.eqb sort_by "created_at"); reflexivity. }
  rewrite map_map. unfold CharacterService.order_by.
  destruct (String.eqb (lower sort_order) "desc").
  - apply (StronglySorted_fmap _ (fun a b =>
             CharacterService.column_le collate sort_by b a = true) _).
    + intros a b Hab. rewrite Hcol in Hab. apply Z.leb_le. assumption.
    + apply window_sorted, sort_rows_sorted.
      * intros a b. rewrite !Hcol, !Z.leb_le. lia.
      * intros a b c. rewrite !Hcol, !Z.leb_le. lia.
  - apply (StronglySorted_fmap _ (fun a b =>
             CharacterService.column_le collate sort_by a b = true) _).
    + intros a b Hab. rewrite Hcol in Hab. apply Z.leb_le. assumption.
    + apply window_sorted, sort_rows_sorted.
      * intros a b. rewrite !Hcol, !Z.leb_le. lia.
      * intros a b c. rewrite !Hcol, !Z.leb_le. lia.
Qed.

Lemma listing_is_ordered_witness :
  StronglySorted (fun a b => b <= a)
    (map FilteredCharacterResponse.id
       (listed (CharacterService.get_characters String.leb 0 five_db offline 1 5
                  "id" "DESC"))).
Proof.
  destruct (CharacterService.get_characters String.leb 0 five_db offline 1 5 "id" "DESC")
    as [[[characters total]|e] cache'] eqn:Hread; [|vm_compute in Hread; discriminate].
  exact (listing_is_ordered String.leb 0 five_db offline 1 5 "id" "DESC"
           characters total eq_refl (f_equal fst Hread) ltac:(discriminate)).
Defined.

(** ** The endpoints *)

(** X16.  [GET /characters] with valid parameters, read from the table: the
    total is the number of rows; [total_pages] is that total divided by
    [per_page], rounded up; [has_next] tells whether rows lie beyond this
    page, which is whether the next page has a record; [has_prev] tells
    whether the page is not the first. *)
Theorem listing_endpoint_pagination
    (collate : string -> string -> bool) (now : Z) (db : session)
    (cache : CacheManager) (page per_page : Z) (sort order : string) :
  Cache.get cache now (CharacterService.listing_key page per_page sort order) = None ->
  Cache.get cache now (CharacterService.listing_key (page + 1) per_page sort order)
  = None ->
  1 <= page -> 1 <= per_page <= 100 ->
  Main.one_of sort ["id"; "name"; "created_at"]%string = true ->
  Main.one_of order ["asc"; "desc"]%string = true ->
  exists l,
    fst (Main.get_characters collate now db cache page per_page sort order) = Respond l
    /\ Main.characters l
       = listed (CharacterService.get_characters collate now db cache page per_page
                   sort order)
    /\ Main.total l = Z.of_nat (length (rows db))
    /\ (Main.total_pages l - 1) * per_page < Main.total l
    /\ Main.total l <= Main.total_pages l * per_page
    /\ (Main.has_next l = true <-> page * per_page < Main.total l)
    /\ (Main.has_next l = true <->
        listed (CharacterService.get_characters collate now db cache (page + 1)
                  per_page sort order) <> [])
    /\ (Main.has_prev l = true <-> 1 < page).
Proof.
  intros Hmiss Hnext Hpage Hper Hsort Horder.
  pose proof (listing_miss collate now db cache page per_page sort order Hmiss Hpage
                ltac:(lia)) as Hread.
  unfold Main.get_characters.
  destruct (Z.ltb_spec page 1) as [?|_]; [lia|].
  destruct (Z.ltb_spec per_page 1) as [?|_]; [lia|].
  destruct (Z.ltb_spec 100 per_page) as [?|_]; [lia|].
  cbn [orb]. rewrite Hsort, Horder. cbn [negb].
  unfold listed at 1. 
  destruct (CharacterService.get_characters collate now db cache page per_page sort order)
    as [r cache'].
  cbn [fst] in Hread. subst r. cbn [fst].
  eexists. split; [reflexivity|]. cbn.
  set (total := Z.of_nat (length (rows db))).
  assert (Htotal : 0 <= total) by (subst total; lia).
  set (pages := (total + per_page - 1) / per_page).
  assert (Hlo : pages * per_page <= total + per_page - 1).
  { subst pages. rewrite Z.mul_comm. apply Z.mul_div_le. lia. }
  assert (Hhi : total + per_page - 1 < (pages + 1) * per_page).
  { subst pages.
    pose proof (Z.mul_succ_div_gt (total + per_page - 1) per_page ltac:(lia)). lia. }
  split; [reflexivity|]. split; [reflexivity|].
  split; [nia|].
  split; [nia|].
  assert (Hnextiff : (page <? pages) = true <-> page * per_page < total).
  { rewrite Z.ltb_lt. split; intros H; nia. }
  split; [exact Hnextiff|]. split.
  - rewrite Hnextiff.
    rewrite (listed_miss collate now db cache (page + 1) per_page sort order Hnext)
      by lia.
    rewrite <- length_zero_iff_nil, length_map, length_take, length_drop, order_by_length.
    fold total. subst total.
    replace (page + 1 - 1) with page by lia. split; intros H; nia.
  - apply Z.ltb_lt.
Qed.

Lemma listing_endpoint_pagination_witness :
  exists l,
    fst (Main.get_characters String.leb 0 five_db offline 2 2 "id" "asc") = Respond l
    /\ map FilteredCharacterResponse.id (Main.characters l) = [3; 4]
    /\ Main.total l = 5 /\ Main.total_pages l = 3
    /\ Main.has_next l = true /\ Main.has_prev l = true.
Proof.
  destruct (listing_endpoint_pagination String.leb 0 five_db offline 2 2 "id" "asc"
              eq_refl eq_refl) as (l & Hl & _); [lia|lia|reflexivity|reflexivity|].
  exists l. split; [exact Hl|].
  vm_compute in Hl. injection Hl as <-. repeat split.
Defined.

Section FreshListingFacts.
Context {lib : PyLib}.

(** A sync that commits clears the listing pattern. *)
Lemma sync_commit_clears (up : upstream) fuel f w w1 db db' cache cache' count
    api_characters :
  get_all_filtered_characters up fuel w = Some (Return api_characters, w1) ->
  api_characters <> [] ->
  sync_characters_from_api up fuel f w db cache = Some (Return count, w1, db', cache') ->
  cache' = snd (Cache.clear_pattern cache (clock w1) "characters:*")
  /\ db' = {| committed := fst (sync_loop f (clock w1) 0 api_characters (rows db) 0);
              rows := fst (sync_loop f (clock w1) 0 api_characters (rows db) 0) |}.
Proof.
  intros Hcrawl Hne. unfold sync_characters_from_api. rewrite Hcrawl.
  destruct api_characters as [|api_char rest]; [contradiction|].
  destruct (sync_loop f (clock w1) 0 (api_char :: rest) (rows db) 0)
    as [table synced_count].
  destruct (commit_fault f) as [e|]; [discriminate|].
  destruct (Cache.clear_pattern cache (clock w1) "characters:*") as [cleared cache2].
  intros H; inversion H; subst. split; reflexivity.
Qed.

Lemma listing_key_in_pattern page per_page sort_by sort_order :
  glob_match (cache_prefix +:+ "characters:*")
             (cache_prefix +:+ CharacterService.listing_key page per_page sort_by sort_order)
  = true.
Proof.
  exact (listing_key_matches
           ("page:" +:+ pretty page +:+ ":per_page:" +:+ pretty per_page
            +:+ ":sort:" +:+ sort_by +:+ ":" +:+ sort_order)).
Qed.

End FreshListingFacts.

(** X17.  After a sync that crawled at least one record and committed, with
    a usable cache, no listing is left in the cache: whatever page, size and
    order are asked for next, the listing is read from the table the sync
    has written. *)
Theorem sync_makes_listings_fresh
    {lib : PyLib} (collate : string -> string -> bool) (up : upstream) (fuel : nat)
    (f : faults) (w w1 : world) (db db' : session) (cache cache' : CacheManager)
    (store : redis) (count : Z) (api_characters : list CharacterResponse.t)
    (t page per_page : Z) (sort_by sort_order : string) :
  get_all_filtered_characters up fuel w = Some (Return api_characters, w1) ->
  api_characters <> [] ->
  sync_characters_from_api up fuel f w db cache = Some (Return count, w1, db', cache') ->
  Cache.usable cache = Some store ->
  1 <= page -> 0 <= per_page ->
  Cache.get cache' t (CharacterService.listing_key page per_page sort_by sort_order)
  = None
  /\ fst (CharacterService.get_characters collate t db' cache' page per_page
            sort_by sort_order)
     = Return (map to_response
                 (take (Z.to_nat per_page)
                       (drop (Z.to_nat ((page - 1) * per_page))
                             (CharacterService.order_by collate sort_by sort_order
                                (rows db')))),
               Z.of_nat (length (rows db'))).
Proof.
  intros Hcrawl Hne Hsync Hu Hpage Hper.
  destruct (sync_commit_clears up _ _ _ _ _ _ _ _ _ _ Hcrawl Hne Hsync) as [Hcache _].
  assert (Hgone : Cache.get cache' t
                    (CharacterService.listing_key page per_page sort_by sort_order)
                  = None).
  { rewrite Hcache.
    exact (clear_pattern_deletes _ _ _ _ _ _ Hu (listing_key_in_pattern _ _ _ _)). }
  split; [exact Hgone|]. apply listing_miss; assumption.
Qed.

(** A listing is cached, Rick is renamed by a sync, the listing is read
    again: it shows the new name. *)
Lemma sync_makes_listings_fresh_witness :
  let cached := snd (CharacterService.get_characters String.leb 100 rick_db online
                       1 20 "id" "asc") in
  Cache.get cached 200 (CharacterService.listing_key 1 20 "id" "asc")
    = Some (ListingDump [to_response rick_row] 1)
  /\ exists w1 db' cache',
       sync_characters_from_api (lib := Reference.lib)
         (serving [page_json [rick_updated] JNull]) 5 no_faults boot rick_db cached
       = Some (Return 1, w1, db', cache')
       /\ map FilteredCharacterResponse.name
            (listed (CharacterService.get_characters String.leb 200 db' cache'
                       1 20 "id" "asc"))
          = ["Rick Sanchez Updated"%string].
Proof.
  intros cached. split; [vm_compute; reflexivity|].
  assert (Hout :
            (fun o => (fst (fst (fst o)), map Character.name (rows (snd (fst o)))))
              <$> sync_characters_from_api (lib := Reference.lib)
                    (serving [page_json [rick_updated] JNull]) 5 no_faults boot
                    rick_db cached
            = Some (Return 1, ["Rick Sanchez Updated"%string])).
  { vm_compute. reflexivity. }
  destruct (sync_characters_from_api (lib := Reference.lib)
              (serving [page_json [rick_updated] JNull]) 5 no_faults boot
              rick_db cached)
    as [[[[r w1] db'] cache']|] eqn:Hsync; [|discriminate].
  simpl in Hout. injection Hout as Hr Hnames. subst r.
  assert (Hcrawl : get_all_filtered_characters (lib := Reference.lib)
                     (serving [page_json [rick_updated] JNull]) 5 boot
                   = Some (Return (omap (M := list) Reference.model_validate [rick_updated]),
                           sleep 20 (set_breaker (CB.new 0)
                                       {| clock := 0; sent := 1; breaker := CB.new 0 |}))).
  { vm_compute. reflexivity. }
  assert (Hw1 : w1 = sleep 20 (set_breaker (CB.new 0)
                                 {| clock := 0; sent := 1; breaker := CB.new 0 |})).
  { unfold sync_characters_from_api in Hsync. rewrite Hcrawl in Hsync.
    vm_compute in Hsync. injection Hsync as <- _ _. reflexivity. }
  subst w1.
  destruct (sync_makes_listings_fresh (lib := Reference.lib) String.leb
              _ _ _ _ _ _ _ _ _
              {[ (cache_prefix +:+ CharacterService.listing_key 1 20 "id" "asc") :=
                   (ListingDump [to_response rick_row] 1, 100 + 1000 * 300) ]}
              _ _ 200 1 20 "id" "asc" Hcrawl ltac:(discriminate) Hsync)
    as [_ Hfresh]; [vm_compute; reflexivity|lia|lia|].
  eexists. exists db', cache'. split; [reflexivity|].
  unfold listed. rewrite Hfresh.
  rewrite map_map.
  assert (Hrows : exists row, rows db' = [row] /\ Character.name row = "Rick Sanchez Updated"%string).
  { destruct (rows db') as [|row [|]]; try discriminate.
    exists row. split; [reflexivity|]. injection Hnames. auto. }
  destruct Hrows as (row & -> & Hname).
  change (map (fun x => FilteredCharacterResponse.name (to_response x)) [row]
          = ["Rick Sanchez Updated"%string]).
  cbn [map to_response FilteredCharacterResponse.name]. rewrite Hname. reflexivity.
Defined.

(** X18.  [GET /characters/{id}] on a table with one row per id and no
    cached entry for the id: an id below 1 is answered 400; an id with a row
    is answered with the response form of that row; an id without a row is
    answered 404, and that answer is not cached, the cache being left as it
    was.  It is never answered 500. *)
Theorem character_endpoint_answers
    (now : Z) (db : session) (cache : CacheManager) (character_id : Z) :
  NoDup (map Character.id (rows db)) ->
  Cache.get cache now (character_key character_id) = None ->
  (character_id < 1 ->
   Main.get_character now db cache character_id = (HTTPException 400, cache))
  /\ (1 <= character_id ->
      (forall row,
          row ∈ rows db -> Character.id row = character_id ->
          fst (Main.get_character now db cache character_id)
          = Respond (to_response row))
      /\ (character_id ∉ map Character.id (rows db) ->
          Main.get_character now db cache character_id = (HTTPException 404, cache))).
Proof.
  intros Hnd Hmiss. unfold Main.get_character. split.
  - intros Hlow. destruct (Z.ltb_spec character_id 1); [reflexivity|lia].
  - intros Hid. destruct (Z.ltb_spec character_id 1) as [?|_]; [lia|].
    unfold get_character_by_id. rewrite Hmiss.
    destruct (select_by_id_unique (rows db) character_id Hnd)
      as [Hnone|(c & Hsel & Hin & Hc)].
    + rewrite Hnone. cbn [scalar_one_or_none]. split; [|reflexivity].
      intros row Hrow Hrowid. exfalso.
      apply (select_by_id_none _ _ Hnone). rewrite <- Hrowid.
      apply list_elem_of_fmap. eauto.
    + rewrite Hsel. cbn [scalar_one_or_none]. split.
      * intros row Hrow Hrowid.
        assert (row = c) as ->.
        { assert (Hrowsel : row ∈ select_by_id (rows db) character_id).
          { unfold select_by_id. apply list_elem_of_In, List.filter_In.
            split; [apply list_elem_of_In; assumption|]. apply Z.eqb_eq. assumption. }
          rewrite Hsel in Hrowsel. apply list_elem_of_singleton in Hrowsel. assumption. }
        destruct (Cache.set cache now _ _ _) as [ok cache']. reflexivity.
      * intros Hnotin. exfalso. apply Hnotin. rewrite <- Hc.
        apply list_elem_of_fmap. eauto.
Qed.

Lemma character_endpoint_answers_witness :
  Main.get_character 0 rick_db online 0 = (HTTPException 400, online)
  /\ fst (Main.get_character 0 rick_db online 1) = Respond (to_response rick_row)
  /\ Main.get_character 0 rick_db online 999 = (HTTPException 404, online).
Proof.
  assert (Hnd : NoDup (map Character.id (rows rick_db))).
  { apply (bool_decide_unpack _). vm_compute. reflexivity. }
  split; [|split].
  - apply (proj1 (character_endpoint_answers 0 rick_db online 0 Hnd eq_refl)). lia.
  - apply (proj2 (character_endpoint_answers 0 rick_db online 1 Hnd eq_refl));
      [lia|left|reflexivity].
  - apply (proj2 (character_endpoint_answers 0 rick_db online 999 Hnd eq_refl)); [lia|].
    vm_compute. intros H. apply list_elem_of_singleton in H. discriminate.
Defined.

(** X19.  The overall status of the health check counts failures: healthy
    when all four checks pass; degraded when the database check passes and
    exactly one of the cache, upstream and data checks fails; unhealthy when
    the database check fails or two of the other checks fail. *)
Theorem overall_health_counts_failures
    (db_healthy cache_healthy api_healthy data_healthy : bool) :
  Main.overall db_healthy cache_healthy api_healthy data_healthy
  = if db_healthy
    then match failures [cache_healthy; api_healthy; data_healthy] with
         | O => healthy
         | S O => degraded
         | _ => unhealthy
         end
    else unhealthy.
Proof.
  destruct db_healthy, cache_healthy, api_healthy, data_healthy; reflexivity.
Qed.

(** X20.  While the breaker of the client is open, [GET /healthcheck] sends
    no request to the upstream and is never answered healthy: it is answered
    degraded when the database, the cache and the data checks all pass, and
    503 as soon as one of them fails too. *)
Theorem healthcheck_with_open_breaker
    (up : upstream) (db_healthy data_healthy : bool)
    (cache : CacheManager) (w : world) :
  CB.opened (breaker w) (clock w) = true ->
  Main.healthcheck up db_healthy data_healthy cache w
  = (match CacheManager.health_check cache with
     | CacheHealthy => if db_healthy && data_healthy
                       then Respond degraded
                       else HTTPException 503
     | _ => HTTPException 503
     end, w).
Proof.
  intros Hopen. unfold Main.healthcheck, health_check.
  rewrite make_request_refused by assumption.
  destruct (CacheManager.health_check cache), db_healthy, data_healthy; reflexivity.
Qed.

Lemma healthcheck_with_open_breaker_witness :
  Main.healthcheck (serving [page_json [rick] JNull])
    true true online (sleep (-1) tripped)
    = (Respond degraded, sleep (-1) tripped)
  /\ Main.healthcheck (serving [page_json [rick] JNull])
       true true offline (sleep (-1) tripped)
     = (HTTPException 503, sleep (-1) tripped).
Proof.
  split.
  - apply (healthcheck_with_open_breaker
             (serving [page_json [rick] JNull]) true true online (sleep (-1) tripped)).
    vm_compute. reflexivity.
  - apply (healthcheck_with_open_breaker
             (serving [page_json [rick] JNull]) true true offline (sleep (-1) tripped)).
    vm_compute. reflexivity.
Defined.

(** ** More on the sync *)


(** X21.  Whatever is crawled and whatever fails, the loop of the sync
    removes no row: every id of the table is still there afterwards, the
    table does not get shorter, and the rows of the ids that were not
    crawled are as they were. *)
Theorem sync_keeps_the_rows_it_did_not_crawl
    {lib : PyLib} (f : faults) (now : Z) (i : nat)
    (api_characters : list CharacterResponse.t) (table : list Character.t) (n : Z) :
  (forall id, id ∉ map CharacterResponse.id api_characters ->
              select_by_id (fst (sync_loop f now i api_characters table n)) id
              = select_by_id table id)
  /\ (forall id, id ∈ map Character.id table ->
                 id ∈ map Character.id (fst (sync_loop f now i api_characters table n)))
  /\ (length table <= length (fst (sync_loop f now i api_characters table n)))%nat.
Proof. apply sync_loop_frame. Qed.

Lemma sync_keeps_the_rows_it_did_not_crawl_witness :
  select_by_id
    (fst (sync_loop (lib := Reference.lib) no_faults 50 0 [summer_response]
            (rows rick_db) 0)) 1
  = [rick_row].
Proof.
  rewrite (proj1 (sync_keeps_the_rows_it_did_not_crawl (lib := Reference.lib)
                    no_faults 50 0 [summer_response] (rows rick_db) 0) 1).
  - reflexivity.
  - vm_compute. intros H. apply list_elem_of_singleton in H. discriminate.
Defined.

(** X22.  A record whose lookup fails is skipped: the loop leaves the table
    as if the record had not been crawled, and does not count it.  With one
    row per id in the table, the count is the number of records whose lookup
    did not fail. *)
Theorem faulted_records_are_skipped
    {lib : PyLib} (f : faults) (now : Z) (i : nat)
    (api_characters : list CharacterResponse.t) (table : list Character.t) (n : Z) :
  NoDup (map Character.id table) ->
  sync_loop f now i api_characters table n
  = sync_loop no_faults now 0 (survivors f i api_characters) table n
  /\ snd (sync_loop f now i api_characters table n)
     = n + Z.of_nat (length (survivors f i api_characters)).
Proof.
  intros Hnd. rewrite (sync_loop_survivors f now api_characters i 0%nat table n).
  split; [reflexivity|].
  apply (sync_loop_counts no_faults now (survivors f i api_characters) 0%nat table n Hnd).
  reflexivity.
Qed.

Lemma faulted_records_are_skipped_witness :
  snd (sync_loop (lib := Reference.lib) second_fails 50 0
         [rick_response; summer_response] [] 0) = 1
  /\ map Character.id
       (fst (sync_loop (lib := Reference.lib) second_fails 50 0
               [rick_response; summer_response] [] 0)) = [1].
Proof.
  destruct (faulted_records_are_skipped (lib := Reference.lib) second_fails 50 0
              [rick_response; summer_response] [] 0 (NoDup_nil_2)) as [Heq Hcount].
  split; [rewrite Hcount; reflexivity|rewrite Heq; reflexivity].
Defined.

(** X23.  After a sync without storage faults of records with distinct ids,
    into a table with one row per id, every crawled record has exactly one
    row: the row it had before with the upstream fields overwritten and
    [updated_at] set to the time of the sync, or a new row when it had
    none.  That row carries the fields of the record. *)
Theorem every_crawled_record_has_its_row
    {lib : PyLib} (f : faults) (now : Z) (i : nat)
    (api_characters : list CharacterResponse.t) (table : list Character.t) (n : Z)
    (api_char : CharacterResponse.t) :
  NoDup (map Character.id table) ->
  (forall k, execute_fault f k = None) ->
  NoDup (map CharacterResponse.id api_characters) ->
  api_char ∈ api_characters ->
  exists row,
    select_by_id (fst (sync_loop f now i api_characters table n))
                 (CharacterResponse.id api_char) = [row]
    /\ row = match select_by_id table (CharacterResponse.id api_char) with
             | existing :: _ => updated existing api_char now
             | [] => new_char api_char now
             end
    /\ carries row api_char
    /\ Character.updated_at row = now.
Proof.
  intros Hnd Hf Hapis Hin. eexists. split; [apply sync_loop_rows; assumption|].
  split; [reflexivity|].
  destruct (select_by_id table (CharacterResponse.id api_char));
    split; try reflexivity; repeat split.
Qed.

Lemma every_crawled_record_has_its_row_witness :
  select_by_id
    (fst (sync_loop (lib := Reference.lib) no_faults 50 0
            [summer_response; rick_response] (rows rick_db) 0)) 1
  = [updated (lib := Reference.lib) rick_row rick_response 50].
Proof.
  destruct (every_crawled_record_has_its_row (lib := Reference.lib) no_faults 50 0
              [summer_response; rick_response] (rows rick_db) 0 rick_response)
    as (row & Hsel & Hrow & _).
  - apply (bool_decide_unpack _). vm_compute. reflexivity.
  - reflexivity.
  - apply (bool_decide_unpack _). vm_compute. reflexivity.
  - right. left.
  - change (CharacterResponse.id rick_response) with 1 in Hsel. rewrite Hsel, Hrow.
    reflexivity.
Defined.
